(** * The progress bar of Nix (src/nix/progress-bar.cc)

    A shallow embedding of [class ProgressBar]: the state it guards, the
    logger callbacks that mutate it, and the status line each callback
    writes to the error stream, followed by the properties of the
    specification checked against that embedding. *)

From Stdlib Require Import ZArith Lia Ascii String.
From stdpp Require Import gmap strings list fin_maps pretty.

Local Open Scope Z_scope.

(** ** Machine integers *)

(** [uint64_t]: a value in [0, 2^64), every addition and subtraction taken
    modulo [2^64]. *)
Abbreviation uint64 := Z (only parsing).

Definition wrap64 (x : Z) : Z := x mod 2 ^ 64.

(** Conversion of an [int] to [size_t], as in the third argument of the
    [std::string] substring constructor. *)
Definition to_size_t (x : Z) : Z := x mod 2 ^ 64.

(** ** Outcomes *)

(** A callback either returns, dies on a failed [assert], or runs into
    undefined behaviour by going through an iterator whose list node has
    been erased. *)
Inductive outcome (A : Type) : Type :=
| Ok (a : A)
| AssertFail
| Undefined.
Arguments Ok {A} a.
Arguments AssertFail {A}.
Arguments Undefined {A}.

#[global] Instance outcome_ret : MRet outcome := λ A a, Ok a.
#[global] Instance outcome_bind : MBind outcome := λ A B f m,
  match m with
  | Ok a => f a
  | AssertFail => AssertFail
  | Undefined => Undefined
  end.

(** ** The types of logging.hh *)

(** Modelled from the spec: [ActivityId], [ActivityType], [ResultType] and
    [Logger::Field] are declared in logging.hh, which is not part of the
    sources at hand. The constructors are the enumerators progress-bar.cc
    names; [actOther] and [resOther] stand for every other value of the
    enumerations. *)
Abbreviation ActivityId := Z (only parsing).

Inductive ActivityType : Type :=
| actUnknown
| actCopyPath
| actDownload
| actCopyPaths
| actBuilds
| actOptimiseStore
| actVerifyPaths
| actOther (code : N).

Inductive ResultType : Type :=
| resFileLinked
| resBuildLogLine
| resUntrustedPath
| resCorruptedPath
| resOther (code : N).

Inductive Field : Type :=
| tString (s : string)
| tInt (i : uint64).

#[global] Instance ActivityType_eq_dec : EqDecision ActivityType.
Proof. solve_decision. Defined.

#[global] Instance ResultType_eq_dec : EqDecision ResultType.
Proof. solve_decision. Defined.

Definition ActivityType_code (t : ActivityType) : nat + N :=
  match t with
  | actUnknown => inl 0%nat
  | actCopyPath => inl 1%nat
  | actDownload => inl 2%nat
  | actCopyPaths => inl 3%nat
  | actBuilds => inl 4%nat
  | actOptimiseStore => inl 5%nat
  | actVerifyPaths => inl 6%nat
  | actOther c => inr c
  end.

Definition ActivityType_of_code (c : nat + N) : ActivityType :=
  match c with
  | inl 1%nat => actCopyPath
  | inl 2%nat => actDownload
  | inl 3%nat => actCopyPaths
  | inl 4%nat => actBuilds
  | inl 5%nat => actOptimiseStore
  | inl 6%nat => actVerifyPaths
  | inl _ => actUnknown
  | inr c => actOther c
  end.

#[global] Instance ActivityType_countable : Countable ActivityType.
Proof.
  apply (inj_countable' ActivityType_code ActivityType_of_code).
  by intros [].
Defined.

(** ** What util.hh provides *)

(** The colour macros, the [boost::format] wrapper [fmt] on numbers and
    [trim] come from util.hh. [fmtDouble d x u] is the text of directive [d]
    for the [double] quotient [x / u]; [fmtInt d x] the text of directive
    [d] for the integer [x]. *)
Class Util := {
  ANSI_NORMAL : string;
  ANSI_RED : string;
  ANSI_GREEN : string;
  ANSI_BLUE : string;
  fmtDouble : string → uint64 → Z → string;
  fmtInt : string → uint64 → string;
  trim : string → string
}.

(** [fmt(itemFmt, s)] with one [%s] directive: the first [%s] of the format
    is replaced by the argument. *)
Fixpoint fmtS (f : string) (arg : string) : string :=
  match f with
  | EmptyString => EmptyString
  | String c rest =>
      match rest with
      | String c' rest' =>
          if (Ascii.eqb c "%"%char && Ascii.eqb c' "s"%char)%bool
          then arg +:+ rest'
          else String c (fmtS rest arg)
      | EmptyString => String c EmptyString
      end
  end.

Definition CR : string := String "013"%char EmptyString.
Definition ESC : string := String "027"%char EmptyString.

(** [ProgressBar()]: [width] is the column count [ioctl] reports, and stays
    0 when [ioctl] fails. *)
Definition initWidth (ws_col : option Z) : Z :=
  match ws_col with
  | Some n => n
  | None => 0
  end.

(** [s.empty()] *)
Definition empty (s : string) : bool :=
  match s with EmptyString => true | _ => false end.

(** [std::string(line, 0, n)]: the first [n] characters, all of them when
    there are fewer. *)
Fixpoint substr0 (line : string) (n : Z) : string :=
  match line with
  | EmptyString => EmptyString
  | String c rest => if n <=? 0 then EmptyString else String c (substr0 rest (n - 1))
  end.

(** ** The state *)

(** A [std::list<ActInfo>::iterator] is the handle of a list node. Handles
    are never reused: [emplace_back] takes the next one, so an iterator
    whose node was erased stays dangling. *)
Abbreviation iterator := nat (only parsing).

Module ActInfo.
Record t : Type := mk {
  s : string;
  s2 : string;
  type : ActivityType;
  done : uint64;
  expected : uint64;
  running : uint64;
  failed : uint64;
  expectedByType : gmap ActivityType Z
}.

(** [ActInfo{s, "", type}] *)
Definition init (s : string) (type : ActivityType) : t :=
  mk s "" type 0 0 0 0 ∅.

Definition set_s2 (a : t) (v : string) : t :=
  mk (s a) v (type a) (done a) (expected a) (running a) (failed a)
     (expectedByType a).

Definition set_counters (a : t) (d e r f : uint64) : t :=
  mk (s a) (s2 a) (type a) d e r f (expectedByType a).

Definition set_expectedByType (a : t) (m : gmap ActivityType Z) : t :=
  mk (s a) (s2 a) (type a) (done a) (expected a) (running a) (failed a) m.
End ActInfo.

Module ActivitiesByType.
Record t : Type := mk {
  its : gmap Z nat;
  done : uint64;
  expected : uint64;
  failed : uint64
}.

(** The value [std::map::operator[]] creates for a key not yet there. *)
Definition init : t := mk ∅ 0 0 0.

Definition set_its (b : t) (m : gmap Z nat) : t :=
  mk m (done b) (expected b) (failed b).
Definition set_done (b : t) (v : uint64) : t :=
  mk (its b) v (expected b) (failed b).
Definition set_expected (b : t) (v : uint64) : t :=
  mk (its b) (done b) v (failed b).
Definition set_failed (b : t) (v : uint64) : t :=
  mk (its b) (done b) (expected b) v.
End ActivitiesByType.

#[global] Instance ActivitiesByType_inhabited : Inhabited ActivitiesByType.t :=
  populate ActivitiesByType.init.

(** [activitiesByType] is only ever reached through [operator[]], which
    reads a missing key as a freshly initialised entry: the map is read
    with the total lookup [!!!]. [nextNode] is the next unused handle. *)
Record State : Type := mkState {
  activities : list (nat * ActInfo.t);
  nextNode : nat;
  its : gmap Z nat;
  activitiesByType : gmap ActivityType ActivitiesByType.t;
  filesLinked : uint64;
  bytesLinked : uint64;
  corruptedPaths : uint64;
  untrustedPaths : uint64
}.

Definition initState : State := mkState [] 0%nat ∅ ∅ 0 0 0 0.

Definition set_activities (st : State) (l : list (nat * ActInfo.t)) (n : nat) : State :=
  mkState l n (its st) (activitiesByType st) (filesLinked st) (bytesLinked st)
          (corruptedPaths st) (untrustedPaths st).
Definition set_its (st : State) (m : gmap Z nat) : State :=
  mkState (activities st) (nextNode st) m (activitiesByType st) (filesLinked st)
          (bytesLinked st) (corruptedPaths st) (untrustedPaths st).
Definition set_activitiesByType (st : State)
    (m : gmap ActivityType ActivitiesByType.t) : State :=
  mkState (activities st) (nextNode st) (its st) m (filesLinked st)
          (bytesLinked st) (corruptedPaths st) (untrustedPaths st).
Definition set_linked (st : State) (files bytes : uint64) : State :=
  mkState (activities st) (nextNode st) (its st) (activitiesByType st) files
          bytes (corruptedPaths st) (untrustedPaths st).
Definition set_corruptedPaths (st : State) (v : uint64) : State :=
  mkState (activities st) (nextNode st) (its st) (activitiesByType st)
          (filesLinked st) (bytesLinked st) v (untrustedPaths st).
Definition set_untrustedPaths (st : State) (v : uint64) : State :=
  mkState (activities st) (nextNode st) (its st) (activitiesByType st)
          (filesLinked st) (bytesLinked st) (corruptedPaths st) v.

(** ** Containers *)

(** [*i] and [i->]: the node of handle [i], if it is still in the list. *)
Fixpoint node (l : list (nat * ActInfo.t)) (i : nat) : option ActInfo.t :=
  match l with
  | [] => None
  | (h, a) :: l' => if decide (h = i) then Some a else node l' i
  end.

Definition deref (l : list (nat * ActInfo.t)) (i : nat) : outcome ActInfo.t :=
  match node l i with
  | Some a => Ok a
  | None => Undefined
  end.

(** [activities.erase(i)] *)
Definition erase (l : list (nat * ActInfo.t)) (i : nat) : list (nat * ActInfo.t) :=
  filter (λ n, n.1 ≠ i) l.

(** Assignment through a reference [ActInfo & actInfo = *i]. *)
Definition assign (l : list (nat * ActInfo.t)) (i : nat) (a : ActInfo.t)
    : list (nat * ActInfo.t) :=
  (λ n, if decide (n.1 = i) then (i, a) else n) <$> l.

(** [std::map::emplace]: no effect when the key is already there. *)
Definition emplace {K V} `{Countable K} (k : K) (v : V) (m : gmap K V) : gmap K V :=
  match m !! k with
  | Some _ => m
  | None => <[k := v]> m
  end.

(** [m[k]] on the per-activity map of expectations. *)
Definition at0 (m : gmap ActivityType Z) (k : ActivityType) : uint64 :=
  default 0 (m !! k).

(** The handles of the list, in list order. *)
Definition handles (st : State) : list nat := (activities st).*1.

(** ** Fields of a result *)

(** [getS] and [getI] assert that the field is there and has the type
    asked for. *)

Definition getS (fields : list Field) (n : nat) : outcome string :=
  match fields !! n with
  | None => AssertFail
  | Some (tString s) => Ok s
  | Some (tInt _) => AssertFail
  end.

Definition getI (fields : list Field) (n : nat) : outcome uint64 :=
  match fields !! n with
  | None => AssertFail
  | Some (tInt i) => Ok i
  | Some (tString _) => AssertFail
  end.

(** ** Rendering *)

Module Metric.
Record t : Type := mk {
  done : uint64;
  expected : uint64;
  running : uint64;
  failed : uint64
}.
End Metric.

Definition MiB : Z := 1024 * 1024.

(** One round of the loop [for (auto & j : act.its)] of [renderActivity]. *)
Definition addLive (l : list (nat * ActInfo.t)) (act : ActivityId) (i : nat)
    (acc : outcome Metric.t) : outcome Metric.t :=
  m ← acc;
  a ← deref l i;
  Ok (Metric.mk (wrap64 (Metric.done m + ActInfo.done a))
                (wrap64 (Metric.expected m + ActInfo.expected a))
                (wrap64 (Metric.running m + ActInfo.running a))
                (wrap64 (Metric.failed m + ActInfo.failed a))).

(** The four numbers [renderActivity] computes for a category. *)
Definition metric (state : State) (type : ActivityType) : outcome Metric.t :=
  let act := activitiesByType state !!! type in
  m ← map_fold (addLive (activities state))
        (Ok (Metric.mk (ActivitiesByType.done act) (ActivitiesByType.done act) 0
                       (ActivitiesByType.failed act)))
        (ActivitiesByType.its act);
  Ok (Metric.mk (Metric.done m)
                (Z.max (Metric.expected m) (ActivitiesByType.expected act))
                (Metric.running m) (Metric.failed m)).

Definition nonzero (x : Z) : bool := negb (x =? 0).

Section Render.
Context `{Util}.

(** The text [renderActivity] makes of the four numbers. The colour macros
    are literal text of the format, each directive stands for its
    formatted argument. *)
Definition renderMetric (m : Metric.t) (itemFmt numberFmt : string) (unit : Z)
    : string :=
  let done := Metric.done m in
  let expected := Metric.expected m in
  let running := Metric.running m in
  let failed := Metric.failed m in
  if nonzero running || nonzero done || nonzero expected || nonzero failed then
    let s :=
      if nonzero running then
        ANSI_BLUE +:+ fmtDouble numberFmt running unit +:+ ANSI_NORMAL +:+ "/"
          +:+ ANSI_GREEN +:+ fmtDouble numberFmt done unit +:+ ANSI_NORMAL +:+ "/"
          +:+ fmtDouble numberFmt expected unit
      else if negb (expected =? done) then
        ANSI_GREEN +:+ fmtDouble numberFmt done unit +:+ ANSI_NORMAL +:+ "/"
          +:+ fmtDouble numberFmt expected unit
      else if nonzero done then
        ANSI_GREEN +:+ fmtDouble numberFmt done unit +:+ ANSI_NORMAL
      else fmtDouble numberFmt done unit in
    let s := fmtS itemFmt s in
    if nonzero failed then
      s +:+ " (" +:+ ANSI_RED +:+ fmtDouble "%d" failed unit +:+ " failed"
        +:+ ANSI_NORMAL +:+ ")"
    else s
  else "".

Definition renderActivity (state : State) (type : ActivityType)
    (itemFmt numberFmt : string) (unit : Z) : outcome string :=
  m ← metric state type;
  Ok (renderMetric m itemFmt numberFmt unit).

(** [if (!res.empty()) res += ", "; res += s;] *)
Definition addClause (res s : string) : string :=
  (if empty res then res else res +:+ ", ") +:+ s.

Definition showActivity (state : State) (res : string) (type : ActivityType)
    (itemFmt numberFmt : string) (unit : Z) : outcome string :=
  s ← renderActivity state type itemFmt numberFmt unit;
  if empty s then Ok res else Ok (addClause res s).

Definition getStatus (state : State) : outcome string :=
  let res := "" in
  res ← showActivity state res actBuilds "%s built" "%d" 1;
  s1 ← renderActivity state actCopyPaths "%s copied" "%d" 1;
  s2 ← renderActivity state actCopyPath "%s MiB" "%.1f" MiB;
  let res :=
    if negb (empty s1) || negb (empty s2) then
      let res := if empty res then res else res +:+ ", " in
      let res := if empty s1 then res +:+ "0 copied" else res +:+ s1 in
      if negb (empty s2) then res +:+ " (" +:+ s2 +:+ ")" else res
    else res in
  res ← showActivity state res actDownload "%s MiB DL" "%.1f" MiB;
  s ← renderActivity state actOptimiseStore "%s paths optimised" "%d" 1;
  let res :=
    if negb (empty s) then
      let s := s +:+ ", " +:+ fmtDouble "%.1f" (bytesLinked state) MiB
                 +:+ " MiB / " +:+ fmtInt "%d" (filesLinked state)
                 +:+ " inodes freed" in
      addClause res s
    else res in
  res ← showActivity state res actVerifyPaths "%s paths verified" "%d" 1;
  let res :=
    if nonzero (corruptedPaths state) then
      addClause res (ANSI_RED +:+ fmtInt "%d" (corruptedPaths state)
                       +:+ " corrupted" +:+ ANSI_NORMAL)
    else res in
  let res :=
    if nonzero (untrustedPaths state) then
      addClause res (ANSI_RED +:+ fmtInt "%d" (untrustedPaths state)
                       +:+ " untrusted" +:+ ANSI_NORMAL)
    else res in
  Ok res.

(** The activity the backward scan of [update] stops at. *)
Definition labelled (n : nat * ActInfo.t) : bool :=
  negb (empty (ActInfo.s n.2) && empty (ActInfo.s2 n.2)).

(** The line [update(State &)] composes, before it is cut to the width. *)
Definition statusLine (state : State) : outcome string :=
  let line := CR in
  status ← getStatus state;
  let line :=
    if negb (empty status) then line +:+ "[" +:+ status +:+ "]" else line in
  let line :=
    match activities state with
    | [] => line
    | _ =>
        let line := if negb (empty status) then line +:+ " " else line in
        match List.find labelled (rev (activities state)) with
        | Some i =>
            let line := line +:+ ActInfo.s i.2 in
            if negb (empty (ActInfo.s2 i.2)) then
              (if negb (empty (ActInfo.s i.2)) then line +:+ ": " else line)
                +:+ ActInfo.s2 i.2
            else line
        | None => line
        end
    end in
  Ok (line +:+ ESC +:+ "[K").

(** [update(State &)]: the line handed to [writeToStderr]. [width] is the
    member the constructor reads from the terminal (0 when it cannot). *)
Definition update (width : Z) (state : State) : outcome string :=
  line ← statusLine state;
  Ok (substr0 line (to_size_t (width - 1))).

(** ** The callbacks

    Each callback changes the state under the lock and then calls
    [update]; it returns the new state and what was written to the error
    stream. The change of state is a definition of its own. *)

Definition redraw (width : Z) (state : State) : outcome (State * list string) :=
  line ← update width state;
  Ok (state, [line]).

Definition log (width : Z) (state : State) (s : string)
    : outcome (State * list string) :=
  line ← update width state;
  Ok (state, [CR +:+ ESC +:+ "[K" +:+ s +:+ String "010"%char EmptyString; line]).

(** [~ProgressBar()]: the line is cleared and, when there is a status, the
    status is left standing on a line of its own. *)
Definition destroy (state : State) : outcome (list string) :=
  status ← getStatus state;
  Ok ([CR +:+ ESC +:+ "[K"]
        ++ (if negb (empty status)
            then ["[" +:+ status +:+ "]" +:+ String "010"%char EmptyString]
            else [])).

Definition startState (state : State) (act : ActivityId)
    (type : ActivityType) (s : string) : State :=
  let i := nextNode state in
  let state :=
    set_activities state (activities state ++ [(i, ActInfo.init s type)]) (S i) in
  let state := set_its state (emplace act i (its state)) in
  let byType := activitiesByType state !!! type in
  set_activitiesByType state
    (<[type := ActivitiesByType.set_its byType
                 (emplace act i (ActivitiesByType.its byType))]>
       (activitiesByType state)).

Definition startActivity (width : Z) (state : State) (act : ActivityId)
    (type : ActivityType) (s : string) : outcome (State * list string) :=
  redraw width (startState state act type s).

(** [state->activitiesByType[j.first].expected -= j.second] *)
Definition subExpected (type : ActivityType) (v : uint64)
    (m : gmap ActivityType ActivitiesByType.t)
    : gmap ActivityType ActivitiesByType.t :=
  let b := m !!! type in
  <[type := ActivitiesByType.set_expected b
              (wrap64 (ActivitiesByType.expected b - v))]> m.

(** The body of [if (i != state->its.end())] in [stopActivity]. *)
Definition stopFound (state : State) (act : ActivityId) (i : nat)
    (info : ActInfo.t) : State :=
  let type := ActInfo.type info in
  let actByType := activitiesByType state !!! type in
  let actByType := ActivitiesByType.set_done actByType
    (wrap64 (ActivitiesByType.done actByType + ActInfo.done info)) in
  let actByType := ActivitiesByType.set_failed actByType
    (wrap64 (ActivitiesByType.failed actByType + ActInfo.failed info)) in
  let byType := <[type := actByType]> (activitiesByType state) in
  let byType := map_fold subExpected byType (ActInfo.expectedByType info) in
  let actByType := byType !!! type in
  let byType :=
    <[type := ActivitiesByType.set_its actByType
                (delete act (ActivitiesByType.its actByType))]> byType in
  let state := set_activitiesByType state byType in
  let state :=
    set_activities state (erase (activities state) i) (nextNode state) in
  set_its state (delete act (its state)).

Definition stopState (state : State) (act : ActivityId) : outcome State :=
  match its state !! act with
  | Some i =>
      info ← deref (activities state) i;
      Ok (stopFound state act i info)
  | None => Ok state
  end.

Definition stopActivity (width : Z) (state : State) (act : ActivityId)
    : outcome (State * list string) :=
  state ← stopState state act;
  redraw width state.

Definition progressState (state : State) (act : ActivityId)
    (done expected running failed : uint64) : outcome State :=
  match its state !! act with
  | None => AssertFail
  | Some i =>
      actInfo ← deref (activities state) i;
      let actInfo := ActInfo.set_counters actInfo done expected running failed in
      Ok (set_activities state (assign (activities state) i actInfo)
                         (nextNode state))
  end.

Definition progress (width : Z) (state : State) (act : ActivityId)
    (done expected running failed : uint64) : outcome (State * list string) :=
  state ← progressState state act done expected running failed;
  redraw width state.

Definition setExpectedState (state : State) (act : ActivityId)
    (type : ActivityType) (expected : uint64) : outcome State :=
  match its state !! act with
  | None => AssertFail
  | Some i =>
      actInfo ← deref (activities state) i;
      let j := at0 (ActInfo.expectedByType actInfo) type in
      let byType := subExpected type j (activitiesByType state) in
      let j := expected in
      let actInfo := ActInfo.set_expectedByType actInfo
        (<[type := j]> (ActInfo.expectedByType actInfo)) in
      let b := byType !!! type in
      let byType :=
        <[type := ActivitiesByType.set_expected b
                    (wrap64 (ActivitiesByType.expected b + j))]> byType in
      let state := set_activitiesByType state byType in
      Ok (set_activities state (assign (activities state) i actInfo)
                         (nextNode state))
  end.

Definition setExpected (width : Z) (state : State) (act : ActivityId)
    (type : ActivityType) (expected : uint64) : outcome (State * list string) :=
  state ← setExpectedState state act type expected;
  redraw width state.

(** The body of [if (!s2.empty())] in [result], up to the call of
    [update]. *)
Definition moveToTail (state : State) (act : ActivityId) (s2 : string)
    : outcome State :=
  match its state !! act with
  | None => AssertFail
  | Some i =>
      info ← deref (activities state) i;
      let l := erase (activities state) i in
      let info := ActInfo.set_s2 info s2 in
      let n := nextNode state in
      let state := set_activities state (l ++ [(n, info)]) (S n) in
      Ok (set_its state (<[act := n]> (its state)))
  end.

Definition result (width : Z) (state : State) (act : ActivityId)
    (type : ResultType) (fields : list Field) : outcome (State * list string) :=
  match type with
  | resFileLinked =>
      n ← getI fields 0;
      let state := set_linked state (wrap64 (filesLinked state + 1))
                              (wrap64 (bytesLinked state + n)) in
      redraw width state
  | resBuildLogLine =>
      s ← getS fields 0;
      let s2 := trim s in
      if negb (empty s2) then
        state ← moveToTail state act s2;
        redraw width state
      else Ok (state, [])
  | resUntrustedPath =>
      redraw width (set_untrustedPaths state (wrap64 (untrustedPaths state + 1)))
  | resCorruptedPath =>
      redraw width (set_corruptedPaths state (wrap64 (corruptedPaths state + 1)))
  | resOther _ => Ok (state, [])
  end.

(** ** Sequences of calls *)

Inductive call : Type :=
| Start (act : ActivityId) (type : ActivityType) (s : string)
| Stop (act : ActivityId)
| Progress (act : ActivityId) (done expected running failed : uint64)
| SetExpected (act : ActivityId) (type : ActivityType) (expected : uint64)
| Result (act : ActivityId) (type : ResultType) (fields : list Field).

Definition step (width : Z) (c : call) (state : State)
    : outcome (State * list string) :=
  match c with
  | Start act type s => startActivity width state act type s
  | Stop act => stopActivity width state act
  | Progress act d e r f => progress width state act d e r f
  | SetExpected act type e => setExpected width state act type e
  | Result act type fields => result width state act type fields
  end.

(** The states a freshly constructed progress bar gets into by calls that
    return, each call allowed by [ok] in the state it is made in. *)
Inductive reachable (width : Z) (ok : call → State → Prop) : State → Prop :=
| reachable_init : reachable width ok initState
| reachable_step state c state' out :
    reachable width ok state →
    ok c state →
    step width c state = Ok (state', out) →
    reachable width ok state'.

(** No restriction on the calls. *)
Definition anyCall (c : call) (state : State) : Prop := True.

(** The caller's side of the contract on activity ids: an activity is
    started under an id that is not in use. *)
Definition freshStart (c : call) (state : State) : Prop :=
  match c with
  | Start act _ _ => its state !! act = None
  | _ => True
  end.
End Render.

(** ** An instance to run the definitions on *)

Definition isSpace (c : ascii) : bool :=
  (Ascii.eqb c " " || Ascii.eqb c "010" || Ascii.eqb c "013" || Ascii.eqb c "009")%char.

Fixpoint ltrim (s : string) : string :=
  match s with
  | EmptyString => EmptyString
  | String c rest => if isSpace c then ltrim rest else s
  end.

(** Modelled from the spec: [trim] is defined in util.cc, outside the
    sources at hand; it removes the whitespace surrounding a text. *)
Definition trimSpaces (s : string) : string :=
  String.rev (ltrim (String.rev (ltrim s))).

(** [n / u] rounded to the nearest integer, a tie to the even one, as the
    C library and the floating-point unit round. *)
Definition roundHalfEven (n u : Z) : Z :=
  let q := n / u in
  let r := n mod u in
  if decide (u < 2 * r) then q + 1
  else if decide (2 * r = u) then (if Z.even q then q else q + 1)
  else q.

(** The conversion of a [uint64_t] to [double]: the nearest value of 53
    significant bits. *)
Definition toDouble (x : Z) : Z :=
  let sh := Z.log2 x - 52 in
  if decide (sh ≤ 0) then x else roundHalfEven x (2 ^ sh) * 2 ^ sh.

(** The [k] low decimal digits of [n], the most significant first. *)
Fixpoint digits (k : nat) (n : Z) : string :=
  match k with
  | O => ""
  | S k' => digits k' (n / 10) +:+ pretty (n mod 10)
  end.

Fixpoint dropZeros (s : string) : string :=
  match s with
  | String c rest => if Ascii.eqb c "0"%char then dropZeros rest else s
  | EmptyString => EmptyString
  end.

(** A fractional part without its trailing zeros, and without the point
    when nothing is left of it. *)
Definition fraction (s : string) : string :=
  let f := String.rev (dropZeros (String.rev s)) in
  if empty f then "" else "." +:+ f.

(** The directive [%.1f] on the quotient [d / u]. *)
Definition fixed1 (d u : Z) : string :=
  let q := roundHalfEven (d * 10) u in
  pretty (q / 10) +:+ "." +:+ pretty (q mod 10).

(** [10 ^ e ≤ d / u] *)
Definition reaches (d u e : Z) : bool :=
  if decide (0 ≤ e) then bool_decide (10 ^ e * u ≤ d)
  else bool_decide (u ≤ d * 10 ^ (- e)).

(** The decimal exponent of a quotient [d / u] between [10 ^ -30] and
    [10 ^ 30]. *)
Definition exponent10 (d u : Z) : Z :=
  default (-30)
    (find (reaches d u) ((λ i : nat, 30 - Z.of_nat i) <$> seq 0 61)).

(** The quotient [d / u] as an output stream writes a [double] by default:
    six significant digits, trailing zeros dropped, in scientific notation
    when the decimal exponent is under -4 or over 5. *)
Definition general6 (d u : Z) : string :=
  if decide (d = 0) then "0"
  else
    let x := exponent10 d u in
    let m := if decide (x ≤ 5) then roundHalfEven (d * 10 ^ (5 - x)) u
             else roundHalfEven d (u * 10 ^ (x - 5)) in
    let x := if decide (m = 10 ^ 6) then x + 1 else x in
    let m := if decide (m = 10 ^ 6) then 10 ^ 5 else m in
    if decide (0 ≤ x ≤ 5) then
      pretty (m / 10 ^ (5 - x))
        +:+ fraction (digits (Z.to_nat (5 - x)) (m mod 10 ^ (5 - x)))
    else if decide (-4 ≤ x < 0) then
      "0" +:+ fraction (digits (Z.to_nat (- x - 1)) 0 +:+ digits 6 m)
    else
      pretty (m / 10 ^ 5) +:+ fraction (digits 5 (m mod 10 ^ 5))
        +:+ "e" +:+ (if decide (x < 0) then "-" else "+")
        +:+ digits (Nat.max 2 (String.length (pretty (Z.abs x)))) (Z.abs x).

(** Modelled from the spec: [fmt] is defined in util.hh, outside the sources
    at hand, over [boost::format]; the specification has a number shown as
    an integer or with one decimal. [renderActivity] hands [fmt] the
    [double] quotient of the number, converted, by the unit; the units of
    [getStatus], 1 and [2 ^ 20], divide without rounding. [%.1f] writes the
    quotient rounded to one decimal. [boost::format] takes from [%d] the
    decimal base only, so that a [double] is written as the stream writes
    it by default: a count under a million as the integer, a larger one in
    scientific notation. *)
Definition decimalQuotient (d : string) (x u : Z) : string :=
  if decide (d = "%.1f") then fixed1 (toDouble x) u
  else general6 (toDouble x) u.

(** Modelled from the spec: the colour macros are defined in util.hh,
    outside the sources at hand; the instance takes the SGR escape sequences
    of the bright colours. An integer given to [%d] is written in
    decimal. *)
#[local] Instance exampleUtil : Util := {|
  ANSI_NORMAL := ESC +:+ "[0m";
  ANSI_RED := ESC +:+ "[31;1m";
  ANSI_GREEN := ESC +:+ "[32;1m";
  ANSI_BLUE := ESC +:+ "[34;1m";
  fmtDouble := decimalQuotient;
  fmtInt := λ _ x, pretty x;
  trim := trimSpaces
|}.

(** ** The vocabulary of the specification *)

(** The per-category lookup [activitiesByType[type].its]. *)
Definition byTypeIts (state : State) (type : ActivityType) : gmap Z nat :=
  ActivitiesByType.its (activitiesByType state !!! type).

(** Every iterator of the category's lookup refers to a node of the list. *)
Definition liveIts (state : State) (type : ActivityType) : Prop :=
  ∀ act i, byTypeIts state type !! act = Some i →
           is_Some (node (activities state) i).

(** The categories [getStatus] renders. *)
Definition rendered : list ActivityType :=
  [actBuilds; actCopyPaths; actCopyPath; actDownload; actOptimiseStore;
   actVerifyPaths].

(** [getStatus] goes through no dangling iterator. *)
Definition renderable (state : State) : Prop :=
  ∀ type, type ∈ rendered → liveIts state type.

(** The item formats [getStatus] passes to [renderActivity]. *)
Definition itemFmts : list string :=
  ["%s built"; "%s copied"; "%s MiB"; "%s MiB DL"; "%s paths optimised";
   "%s paths verified"].

(** The live activities of a category, and the sum of one of their
    counters. *)
Definition liveInfos (state : State) (type : ActivityType) : list ActInfo.t :=
  omap (λ j : Z * nat, node (activities state) j.2)
       (map_to_list (byTypeIts state type)).

Definition total (f : ActInfo.t → Z) (l : list ActInfo.t) : Z :=
  foldr (λ a acc, f a + acc) 0 l.


(** The clauses of the status, joined as the specification says. *)
Fixpoint join (sep : string) (l : list string) : string :=
  match l with
  | [] => ""
  | x :: l' =>
      match l' with
      | [] => x
      | _ => x +:+ sep +:+ join sep l'
      end
  end.

Definition nonEmpty (l : list string) : list string :=
  List.filter (λ s, negb (empty s)) l.

Section Clauses.
Context `{Util}.

Definition copiedClause (s1 s2 : string) : string :=
  if empty s1 && empty s2 then ""
  else (if empty s1 then "0 copied" else s1)
         +:+ (if empty s2 then "" else " (" +:+ s2 +:+ ")").

Definition optimisedClause (state : State) (s : string) : string :=
  if empty s then ""
  else s +:+ ", " +:+ fmtDouble "%.1f" (bytesLinked state) MiB
         +:+ " MiB / " +:+ fmtInt "%d" (filesLinked state) +:+ " inodes freed".

Definition corruptedClause (state : State) : string :=
  if nonzero (corruptedPaths state)
  then ANSI_RED +:+ fmtInt "%d" (corruptedPaths state) +:+ " corrupted"
         +:+ ANSI_NORMAL
  else "".

Definition untrustedClause (state : State) : string :=
  if nonzero (untrustedPaths state)
  then ANSI_RED +:+ fmtInt "%d" (untrustedPaths state) +:+ " untrusted"
         +:+ ANSI_NORMAL
  else "".
End Clauses.

(** The position of a handle in the ordering list. *)
Definition onePosition (state : State) (i : nat) : Prop :=
  ∃ p : nat, handles state !! p = Some i ∧
             ∀ q : nat, handles state !! q = Some i → q = p.

Definition oneId (state : State) (i : nat) : Prop :=
  ∃ act : Z, its state !! act = Some i ∧
             ∀ act' : Z, its state !! act' = Some i → act' = act.

(** The list and the global lookup agree. *)
Definition globallyConsistent (state : State) : Prop :=
  (∀ act i, its state !! act = Some i → onePosition state i) ∧
  (∀ p i, handles state !! p = Some i → oneId state i).

(** The list and both lookups agree. *)
Definition consistent (state : State) : Prop :=
  globallyConsistent state ∧
  (∀ type act i, byTypeIts state type !! act = Some i → onePosition state i).

(** The baselines are values of [uint64_t]. *)
Definition baselineInRange (state : State) : Prop :=
  ∀ type,
    0 ≤ ActivitiesByType.done (activitiesByType state !!! type) < 2 ^ 64 ∧
    0 ≤ ActivitiesByType.failed (activitiesByType state !!! type) < 2 ^ 64.

(** What the callbacks keep true of the state when activities are started
    under fresh ids. A per-category iterator may dangle (after a build log
    line), but never refers to the node of another activity. *)
Record wellFormed (state : State) : Prop := {
  wf_nodup : NoDup (handles state);
  wf_bound : ∀ i, i ∈ handles state → (i < nextNode state)%nat;
  wf_its : ∀ act i, its state !! act = Some i → i ∈ handles state;
  wf_inj : ∀ act1 act2 i,
      its state !! act1 = Some i → its state !! act2 = Some i → act1 = act2;
  wf_onto : ∀ i, i ∈ handles state → ∃ act, its state !! act = Some i;
  wf_byType_bound : ∀ type act i,
      byTypeIts state type !! act = Some i → (i < nextNode state)%nat;
  wf_byType : ∀ type act i',
      byTypeIts state type !! act = Some i' →
      ∃ i info, its state !! act = Some i ∧
                node (activities state) i = Some info ∧
                ActInfo.type info = type ∧
                (i' ∈ handles state → i' = i);
  wf_registered : ∀ act i info,
      its state !! act = Some i →
      node (activities state) i = Some info →
      is_Some (byTypeIts state (ActInfo.type info) !! act);
  wf_range : baselineInRange state
}.

(** ** Runs *)

Section Runs.
Context `{Util}.

(** The calls of a list made one after the other, with all they wrote. *)
Fixpoint run (width : Z) (cs : list call) (state : State)
    : outcome (State * list string) :=
  match cs with
  | [] => Ok (state, [])
  | c :: cs =>
      r ← step width c state;
      r' ← run width cs r.1;
      Ok (r'.1, r.2 ++ r'.2)
  end.

(** Every call of the list is allowed by [ok] in the state it is made
    in. *)
Fixpoint allowed (width : Z) (ok : call → State → Prop) (cs : list call)
    (state : State) : Prop :=
  match cs with
  | [] => True
  | c :: cs =>
      ok c state ∧
      match step width c state with
      | Ok r => allowed width ok cs r.1
      | _ => True
      end
  end.

Definition stateAfter (cs : list call) : State :=
  match run 80 cs initState with
  | Ok r => r.1
  | _ => initState
  end.
End Runs.

#[local] Existing Instance exampleUtil.

(** One build started, at one of three, then stopped. *)
Definition exBuilding : State :=
  stateAfter [Start 1 actBuilds "building foo"; Progress 1 1 3 0 0].

Definition exBuilt : State :=
  stateAfter [Start 1 actBuilds "building foo"; Progress 1 1 3 0 0; Stop 1].

(** Two downloads going on, and a copy of which only bytes are known. *)
Definition exDownloads : State :=
  stateAfter [Start 1 actDownload "a"; Start 2 actDownload "b";
              Progress 1 2 4 0 0; Progress 2 5 10 1 0;
              Start 3 actCopyPath "c"; Progress 3 1048576 2097152 0 0].

(** An activity that is not rendered, after a build log line. *)
Definition exLogged : State :=
  stateAfter [Start 7 actUnknown "building foo";
              Result 7 resBuildLogLine [tString "compiling x.c"]].

(** The same id started twice, then a build log line. *)
Definition exTwice : State :=
  stateAfter [Start 1 actUnknown "a"; Start 1 actUnknown "b";
              Result 1 resBuildLogLine [tString "x"]].

(** An id used again while a node started under it is still in the list:
    two builds run, one at [2^64 - 1] done and one, under the id used
    again, at 5. *)
Definition exReused : State :=
  stateAfter [Start 2 actUnknown "a"; Start 2 actBuilds "b"; Stop 2;
              Start 2 actBuilds "c"; Start 3 actBuilds "d";
              Progress 3 (2 ^ 64 - 1) 0 0 0; Progress 2 5 0 0 0].

(** ** Further vocabulary *)

(** The text [update] appends for the activity its backward scan stops at:
    the primary label, the secondary label, or both with [": "] between. *)
Definition labelText (a : ActInfo.t) : string :=
  ActInfo.s a
    +:+ (if negb (empty (ActInfo.s2 a))
         then (if negb (empty (ActInfo.s a)) then ": " else "") +:+ ActInfo.s2 a
         else "").

(** The status between brackets, when there is one. *)
Definition bracket (status : string) : string :=
  if negb (empty status) then "[" +:+ status +:+ "]" else "".

(** What the activities of the list have declared as expected for a
    category, summed. *)
Definition declared (state : State) (type : ActivityType) : Z :=
  total (λ a, at0 (ActInfo.expectedByType a) type) (activities state).*2.

(** The handles of the list are distinct and below the next one. *)
Definition handlesFresh (state : State) : Prop :=
  NoDup (handles state) ∧ ∀ i, i ∈ handles state → (i < nextNode state)%nat.

Definition zeroMetric (m : Metric.t) : Prop :=
  Metric.done m = 0 ∧ Metric.expected m = 0 ∧ Metric.running m = 0 ∧
  Metric.failed m = 0.

Section FurtherVocabulary.
Context `{Util}.

(** The calls that run into a failed [assert]: [progress] and [setExpected]
    under an id that is not in the registry, a result whose first field is
    missing or of the wrong type, and a build log line that is not blank
    under an id that is not in the registry. *)
Definition assertFails (c : call) (state : State) : Prop :=
  match c with
  | Start _ _ _ => False
  | Stop _ => False
  | Progress act _ _ _ _ => its state !! act = None
  | SetExpected act _ _ => its state !! act = None
  | Result act type fields =>
      match type with
      | resFileLinked => ∀ n, fields !! 0%nat ≠ Some (tInt n)
      | resBuildLogLine =>
          (∀ s, fields !! 0%nat ≠ Some (tString s)) ∨
          (∃ s, fields !! 0%nat = Some (tString s) ∧ trim s ≠ "" ∧
                its state !! act = None)
      | _ => False
      end
  end.

(** The one call that goes through a dangling iterator: a build log line
    that is not blank, for a live activity of a category the status
    renders. *)
Definition dereferencesDangling (c : call) (state : State) : Prop :=
  match c with
  | Result act resBuildLogLine fields =>
      ∃ s i info,
        fields !! 0%nat = Some (tString s) ∧ trim s ≠ "" ∧
        its state !! act = Some i ∧
        node (activities state) i = Some info ∧
        ActInfo.type info ∈ rendered
  | _ => False
  end.

(** The ids of the registry after a call that returns. *)
Definition idsAfter (c : call) (ids : gset Z) : gset Z :=
  match c with
  | Start act _ _ => {[act]} ∪ ids
  | Stop act => ids ∖ {[act]}
  | _ => ids
  end.

(** The four global counters after a call that returns. *)
Definition filesLinkedAfter (c : call) (state : State) : Z :=
  match c with
  | Result _ resFileLinked _ => wrap64 (filesLinked state + 1)
  | _ => filesLinked state
  end.

Definition bytesLinkedAfter (c : call) (state : State) : Z :=
  match c with
  | Result _ resFileLinked fields =>
      match fields !! 0%nat with
      | Some (tInt n) => wrap64 (bytesLinked state + n)
      | _ => bytesLinked state
      end
  | _ => bytesLinked state
  end.

Definition corruptedPathsAfter (c : call) (state : State) : Z :=
  match c with
  | Result _ resCorruptedPath _ => wrap64 (corruptedPaths state + 1)
  | _ => corruptedPaths state
  end.

Definition untrustedPathsAfter (c : call) (state : State) : Z :=
  match c with
  | Result _ resUntrustedPath _ => wrap64 (untrustedPaths state + 1)
  | _ => untrustedPaths state
  end.
End FurtherVocabulary.

(** * Properties *)

(** ** Strings *)

Lemma app_cons_s (x : ascii) (a b : string) :
  String x a +:+ b = String x (a +:+ b).
Proof. reflexivity. Qed.

Lemma app_assoc_s (a b c : string) : (a +:+ b) +:+ c = a +:+ (b +:+ c).
Proof.
  induction a as [|x a IH]; [done|]. by rewrite !app_cons_s, IH.
Qed.

Lemma app_nil_s (a : string) : a +:+ "" = a.
Proof.
  induction a as [|x a IH]; [done|]. by rewrite app_cons_s, IH.
Qed.

Lemma length_app_s (a b : string) :
  String.length (a +:+ b) = (String.length a + String.length b)%nat.
Proof.
  induction a as [|x a IH]; [done|]. rewrite app_cons_s. simpl. by rewrite IH.
Qed.

Lemma empty_true (a : string) : empty a = true ↔ a = "".
Proof. by destruct a. Qed.

Lemma empty_app (a b : string) : empty (a +:+ b) = empty a && empty b.
Proof. by destruct a. Qed.

Lemma length_substr0 (line : string) (n : Z) :
  0 ≤ n →
  Z.of_nat (String.length (substr0 line n)) = Z.min (Z.of_nat (String.length line)) n.
Proof.
  revert n. induction line as [|c line IH]; intros n Hn; simpl.
  - lia.
  - destruct (Z.leb_spec n 0) as [Hle|Hlt]; simpl.
    + lia.
    + rewrite Nat2Z.inj_succ, IH by lia. lia.
Qed.

Lemma substr0_all (line : string) (n : Z) :
  Z.of_nat (String.length line) ≤ n → substr0 line n = line.
Proof.
  revert n. induction line as [|c line IH]; intros n Hn; simpl; [done|].
  simpl in Hn. destruct (Z.leb_spec n 0) as [Hle|Hlt]; [lia|].
  rewrite IH; [done | lia].
Qed.

Lemma fmtS_item (suffix arg : string) :
  fmtS ("%s" +:+ suffix) arg = arg +:+ suffix.
Proof. done. Qed.

Lemma itemFmts_suffix (f : string) :
  f ∈ itemFmts → ∃ suffix, f = "%s" +:+ suffix ∧ empty suffix = false.
Proof.
  unfold itemFmts. rewrite !elem_of_cons, elem_of_nil.
  intros [->|[->|[->|[->|[->|[->|[]]]]]]]; eexists; split; simpl; try reflexivity.
Qed.

(** ** Outcomes *)

Lemma bind_Ok {A B} (f : A → outcome B) (m : outcome A) (b : B) :
  m ≫= f = Ok b ↔ ∃ a, m = Ok a ∧ f a = Ok b.
Proof.
  destruct m as [a| |]; simpl; split; try done.
  - intros Hf. by exists a.
  - by intros (a' & [= ->] & Hf).
  - by intros (a' & Hm & _).
  - by intros (a' & Hm & _).
Qed.

Lemma deref_Ok l i a : deref l i = Ok a ↔ node l i = Some a.
Proof. unfold deref. destruct (node l i); naive_solver. Qed.

(** ** The four numbers of a category *)

Lemma wrap64_add_l (x y : Z) : wrap64 (wrap64 x + y) = wrap64 (x + y).
Proof. unfold wrap64. by rewrite Zplus_mod_idemp_l. Qed.

Lemma wrap64_small (x : Z) : 0 ≤ x < 2 ^ 64 → wrap64 x = x.
Proof. intros. unfold wrap64. by apply Z.mod_small. Qed.

Lemma wrap64_range (x : Z) : 0 ≤ wrap64 x < 2 ^ 64.
Proof. unfold wrap64. apply Z.mod_pos_bound. lia. Qed.

Lemma foldr_addLive_Ok l (L : list (Z * nat)) (m0 : Metric.t) :
  Forall (λ j, is_Some (node l j.2)) L →
  ∃ m, foldr (uncurry (addLive l)) (Ok m0) L = Ok m ∧
       wrap64 (Metric.done m) =
         wrap64 (Metric.done m0
                 + total ActInfo.done (omap (λ j : Z * nat, node l j.2) L)) ∧
       wrap64 (Metric.expected m) =
         wrap64 (Metric.expected m0
                 + total ActInfo.expected (omap (λ j : Z * nat, node l j.2) L)) ∧
       wrap64 (Metric.running m) =
         wrap64 (Metric.running m0
                 + total ActInfo.running (omap (λ j : Z * nat, node l j.2) L)) ∧
       wrap64 (Metric.failed m) =
         wrap64 (Metric.failed m0
                 + total ActInfo.failed (omap (λ j : Z * nat, node l j.2) L)) ∧
       (L ≠ [] → Metric.done m = wrap64 (Metric.done m) ∧
                 Metric.expected m = wrap64 (Metric.expected m) ∧
                 Metric.running m = wrap64 (Metric.running m) ∧
                 Metric.failed m = wrap64 (Metric.failed m)) ∧
       (L = [] → m = m0).
Proof.
  induction 1 as [|[act i] L [a Ha] HL (m & Hm & Hd & He & Hr & Hf & _ & _)].
  - exists m0. simpl. rewrite !Z.add_0_r. by repeat split.
  - simpl in Ha. rewrite foldr_cons, Hm. simpl.
    unfold addLive, deref. simpl. rewrite Ha. simpl.
    eexists; split; [reflexivity|]. simpl.
    assert (∀ x y z, wrap64 x = wrap64 (y + z) →
                     ∀ k, wrap64 (wrap64 (x + k)) = wrap64 (y + (k + z))) as Hw.
    { intros x y z Hx k. rewrite (wrap64_small (wrap64 _)) by apply wrap64_range.
      rewrite <- wrap64_add_l, Hx, wrap64_add_l. f_equal. lia. }
    repeat split; try (by apply Hw);
      try (symmetry; apply wrap64_small, wrap64_range); done.
Qed.

Lemma foldr_addLive_valid l (L : list (Z * nat)) (m0 m : Metric.t) :
  foldr (uncurry (addLive l)) (Ok m0) L = Ok m →
  Forall (λ j, is_Some (node l j.2)) L.
Proof.
  revert m. induction L as [|[act i] L IH]; intros m Hm; [constructor|].
  simpl in Hm. unfold addLive at 1 in Hm.
  apply bind_Ok in Hm as (m' & Hm' & Hm).
  apply bind_Ok in Hm as (a & Ha & _). apply deref_Ok in Ha.
  constructor; [by exists a | by eapply IH].
Qed.

Lemma liveIts_Forall state type :
  liveIts state type ↔
  Forall (λ j : Z * nat, is_Some (node (activities state) j.2))
         (map_to_list (byTypeIts state type)).
Proof.
  unfold liveIts. rewrite Forall_forall. split.
  - intros Hl [act i] Hin. apply elem_of_map_to_list in Hin. by eapply Hl.
  - intros Hl act i Hin. apply (Hl (act, i)). by apply elem_of_map_to_list.
Qed.

Lemma metric_Ok_liveIts state type m :
  metric state type = Ok m → liveIts state type.
Proof.
  unfold metric. intros Hm. apply bind_Ok in Hm as (m' & Hm' & _).
  rewrite map_fold_foldr in Hm'. apply liveIts_Forall.
  by eapply foldr_addLive_valid.
Qed.

Lemma metric_defined state type :
  liveIts state type → ∃ m, metric state type = Ok m.
Proof.
  intros Hl. apply liveIts_Forall in Hl.
  destruct (foldr_addLive_Ok _ _
    (Metric.mk (ActivitiesByType.done (activitiesByType state !!! type))
               (ActivitiesByType.done (activitiesByType state !!! type)) 0
               (ActivitiesByType.failed (activitiesByType state !!! type))) Hl)
    as (m & Hm & _).
  unfold metric. rewrite map_fold_foldr. unfold byTypeIts in Hm. rewrite Hm.
  by eexists.
Qed.

Lemma metric_closed state type :
  let b := activitiesByType state !!! type in
  liveIts state type →
  0 ≤ ActivitiesByType.done b < 2 ^ 64 →
  0 ≤ ActivitiesByType.failed b < 2 ^ 64 →
  metric state type =
    Ok (Metric.mk
          (wrap64 (ActivitiesByType.done b
                   + total ActInfo.done (liveInfos state type)))
          (Z.max (wrap64 (ActivitiesByType.done b
                          + total ActInfo.expected (liveInfos state type)))
                 (ActivitiesByType.expected b))
          (wrap64 (total ActInfo.running (liveInfos state type)))
          (wrap64 (ActivitiesByType.failed b
                   + total ActInfo.failed (liveInfos state type)))).
Proof.
  intros b Hl Hd Hf. apply liveIts_Forall in Hl.
  unfold liveInfos, metric. rewrite map_fold_foldr.
  unfold byTypeIts in *. fold b in Hl |- *.
  set (L := map_to_list (ActivitiesByType.its b)) in *.
  destruct (foldr_addLive_Ok _ _
    (Metric.mk (ActivitiesByType.done b) (ActivitiesByType.done b) 0
               (ActivitiesByType.failed b)) Hl)
    as (m & Hm & Hmd & Hme & Hmr & Hmf & Hne & Hnil).
  rewrite Hm. simpl. simpl in Hmd, Hme, Hmr, Hmf.
  destruct L as [|j L].
  - rewrite (Hnil eq_refl). simpl. rewrite !Z.add_0_r.
    by rewrite !wrap64_small by lia.
  - destruct Hne as (-> & -> & -> & ->); [done|].
    by rewrite Hmd, Hme, Hmr, Hmf.
Qed.

Section RenderProperties.
Context `{Util}.

Lemma renderActivity_defined state type itemFmt numberFmt unit :
  liveIts state type →
  ∃ s, renderActivity state type itemFmt numberFmt unit = Ok s.
Proof.
  intros Hl. destruct (metric_defined _ _ Hl) as [m Hm].
  unfold renderActivity. rewrite Hm. by eexists.
Qed.

Lemma renderActivity_Ok_liveIts state type itemFmt numberFmt unit s :
  renderActivity state type itemFmt numberFmt unit = Ok s →
  liveIts state type.
Proof.
  unfold renderActivity. intros Hr. apply bind_Ok in Hr as (m & Hm & _).
  by eapply metric_Ok_liveIts.
Qed.

(** The fragment is empty exactly when the four numbers are zero. *)
Lemma renderMetric_empty m itemFmt numberFmt unit :
  itemFmt ∈ itemFmts →
  renderMetric m itemFmt numberFmt unit = "" ↔
  Metric.done m = 0 ∧ Metric.expected m = 0 ∧ Metric.running m = 0 ∧
  Metric.failed m = 0.
Proof.
  intros (suffix & -> & Hs)%itemFmts_suffix. unfold renderMetric, nonzero.
  rewrite fmtS_item.
  destruct (Z.eqb_spec (Metric.running m) 0) as [Hr|Hr];
    destruct (Z.eqb_spec (Metric.done m) 0) as [Hd|Hd];
    destruct (Z.eqb_spec (Metric.expected m) 0) as [He|He];
    destruct (Z.eqb_spec (Metric.failed m) 0) as [Hf|Hf]; simpl;
    try (split; [|tauto]); try tauto;
    intros Hempty; apply empty_true in Hempty;
    rewrite ?empty_app, Hs, ?andb_false_r in Hempty; simpl in Hempty;
    try discriminate.
Qed.
End RenderProperties.

(** ** The status *)

Lemma addClause_nonempty (res s : string) :
  empty s = false → empty (addClause res s) = false.
Proof.
  intros Hs. unfold addClause. rewrite empty_app, Hs. apply andb_false_r.
Qed.

(** Appending the non-empty clauses one after the other gives the clauses
    joined by the separator. *)
Lemma fold_clauses (l : list string) (res : string) :
  fold_left (λ res s, if empty s then res else addClause res s) l res =
    if empty res then join ", " (nonEmpty l)
    else match nonEmpty l with
         | [] => res
         | _ => res +:+ ", " +:+ join ", " (nonEmpty l)
         end.
Proof.
  revert res. induction l as [|s l IH]; intros res; simpl.
  - by destruct res.
  - destruct (empty s) eqn:Hs; simpl; [apply IH|].
    rewrite IH, (addClause_nonempty _ _ Hs). unfold addClause.
    destruct (empty res) eqn:Hres.
    + apply empty_true in Hres as ->. simpl. by destruct (nonEmpty l).
    + destruct (nonEmpty l); by rewrite !app_assoc_s.
Qed.

Section StatusProperties.
Context `{Util}.

Lemma copied_step (res s1 s2 : string) :
  (if negb (empty s1) || negb (empty s2) then
     let res := if empty res then res else res +:+ ", " in
     let res := if empty s1 then res +:+ "0 copied" else res +:+ s1 in
     if negb (empty s2) then res +:+ " (" +:+ s2 +:+ ")" else res
   else res) =
  if empty (copiedClause s1 s2) then res
  else addClause res (copiedClause s1 s2).
Proof.
  unfold copiedClause, addClause.
  destruct (empty s1) eqn:H1, (empty s2) eqn:H2; simpl;
    rewrite ?empty_app, ?H1, ?H2; simpl;
    by rewrite ?app_assoc_s, ?app_nil_s.
Qed.

Lemma optimised_step (state : State) (res s : string) :
  (if negb (empty s) then
     let s := s +:+ ", " +:+ fmtDouble "%.1f" (bytesLinked state) MiB
                +:+ " MiB / " +:+ fmtInt "%d" (filesLinked state)
                +:+ " inodes freed" in
     addClause res s
   else res) =
  if empty (optimisedClause state s) then res
  else addClause res (optimisedClause state s).
Proof.
  unfold optimisedClause. destruct (empty s) eqn:Hs; simpl; [done|].
  by rewrite empty_app, Hs.
Qed.

Lemma counter_step (res pre post : string) (x : Z) :
  empty post = false →
  (if nonzero x then addClause res (ANSI_RED +:+ pre +:+ post +:+ ANSI_NORMAL)
   else res) =
  if empty (if nonzero x then ANSI_RED +:+ pre +:+ post +:+ ANSI_NORMAL else "")
  then res
  else addClause res
         (if nonzero x then ANSI_RED +:+ pre +:+ post +:+ ANSI_NORMAL else "").
Proof.
  intros Hpost. destruct (nonzero x); [|done].
  by rewrite !empty_app, Hpost, !andb_false_r.
Qed.

Lemma showActivity_step state res type itemFmt numberFmt unit s :
  renderActivity state type itemFmt numberFmt unit = Ok s →
  showActivity state res type itemFmt numberFmt unit =
    Ok (if empty s then res else addClause res s).
Proof.
  intros Hs. unfold showActivity. rewrite Hs. simpl. by destruct (empty s).
Qed.

(** [getStatus] as one pass over its seven clauses. *)
Lemma getStatus_fold state b s1 s2 d o v :
  renderActivity state actBuilds "%s built" "%d" 1 = Ok b →
  renderActivity state actCopyPaths "%s copied" "%d" 1 = Ok s1 →
  renderActivity state actCopyPath "%s MiB" "%.1f" MiB = Ok s2 →
  renderActivity state actDownload "%s MiB DL" "%.1f" MiB = Ok d →
  renderActivity state actOptimiseStore "%s paths optimised" "%d" 1 = Ok o →
  renderActivity state actVerifyPaths "%s paths verified" "%d" 1 = Ok v →
  getStatus state =
    Ok (fold_left (λ res s, if empty s then res else addClause res s)
          [b; copiedClause s1 s2; d; optimisedClause state o; v;
           corruptedClause state; untrustedClause state] "").
Proof.
  intros Hb H1 H2 Hd Ho Hv. unfold getStatus. cbv zeta.
  rewrite (showActivity_step _ _ _ _ _ _ _ Hb), H1, H2.
  cbn [mbind outcome_bind].
  rewrite (showActivity_step _ _ _ _ _ _ _ Hd), Ho.
  cbn [mbind outcome_bind].
  rewrite (showActivity_step _ _ _ _ _ _ _ Hv).
  cbn [mbind outcome_bind fold_left].
  unfold corruptedClause, untrustedClause.
  f_equal.
  rewrite <- (counter_step _ _ " untrusted") by done.
  rewrite <- (counter_step _ _ " corrupted") by done.
  rewrite <- optimised_step, <- copied_step.
  reflexivity.
Qed.

End StatusProperties.

Section UpdateProperties.
Context `{Util}.

Lemma getStatus_defined state :
  renderable state → ∃ status, getStatus state = Ok status.
Proof.
  intros Hr.
  destruct (renderActivity_defined state actBuilds "%s built" "%d" 1)
    as [b Hb]; [apply Hr; set_solver|].
  destruct (renderActivity_defined state actCopyPaths "%s copied" "%d" 1)
    as [s1 H1]; [apply Hr; set_solver|].
  destruct (renderActivity_defined state actCopyPath "%s MiB" "%.1f" MiB)
    as [s2 H2]; [apply Hr; set_solver|].
  destruct (renderActivity_defined state actDownload "%s MiB DL" "%.1f" MiB)
    as [d Hd]; [apply Hr; set_solver|].
  destruct (renderActivity_defined state actOptimiseStore
              "%s paths optimised" "%d" 1) as [o Ho]; [apply Hr; set_solver|].
  destruct (renderActivity_defined state actVerifyPaths
              "%s paths verified" "%d" 1) as [v Hv]; [apply Hr; set_solver|].
  rewrite (getStatus_fold _ _ _ _ _ _ _ Hb H1 H2 Hd Ho Hv). by eexists.
Qed.

Lemma showActivity_Ok_liveIts state res type itemFmt numberFmt unit res' :
  showActivity state res type itemFmt numberFmt unit = Ok res' →
  liveIts state type.
Proof.
  unfold showActivity. intros (s & Hs & _)%bind_Ok.
  by eapply renderActivity_Ok_liveIts.
Qed.

Lemma getStatus_Ok_renderable state status :
  getStatus state = Ok status → renderable state.
Proof.
  unfold getStatus. cbv zeta.
  intros (r1 & Hb%showActivity_Ok_liveIts & Hg)%bind_Ok.
  apply bind_Ok in Hg as (s1 & H1%renderActivity_Ok_liveIts & Hg).
  apply bind_Ok in Hg as (s2 & H2%renderActivity_Ok_liveIts & Hg).
  apply bind_Ok in Hg as (r2 & Hd%showActivity_Ok_liveIts & Hg).
  apply bind_Ok in Hg as (o & Ho%renderActivity_Ok_liveIts & Hg).
  apply bind_Ok in Hg as (r3 & Hv%showActivity_Ok_liveIts & Hg).
  intros type. unfold rendered. rewrite !elem_of_cons, elem_of_nil.
  intros [->|[->|[->|[->|[->|[->|[]]]]]]]; assumption.
Qed.

Lemma statusLine_defined state :
  renderable state → ∃ line, statusLine state = Ok line.
Proof.
  intros [status Hs]%getStatus_defined. unfold statusLine. rewrite Hs.
  by eexists.
Qed.

Lemma update_defined width state :
  renderable state → ∃ line, update width state = Ok line.
Proof.
  intros [line Hl]%statusLine_defined. unfold update. rewrite Hl. by eexists.
Qed.

Lemma update_Ok_renderable width state line :
  update width state = Ok line → renderable state.
Proof.
  unfold update, statusLine. intros (full & Hf & _)%bind_Ok.
  apply bind_Ok in Hf as (status & Hs & _). by eapply getStatus_Ok_renderable.
Qed.

Lemma redraw_defined width state :
  renderable state →
  ∃ line, update width state = Ok line ∧ redraw width state = Ok (state, [line]).
Proof.
  intros [line Hl]%(update_defined width). exists line. split; [done|].
  unfold redraw. by rewrite Hl.
Qed.

Lemma redraw_Ok width state state' out :
  redraw width state = Ok (state', out) →
  state' = state ∧ renderable state ∧
  ∃ line, out = [line] ∧ update width state = Ok line.
Proof.
  unfold redraw. intros (line & Hl & [= <- <-])%bind_Ok.
  split; [done|]. split; [by eapply update_Ok_renderable|]. by exists line.
Qed.

Lemma bind_not_AssertFail {A B} (f : A → outcome B) (m : outcome A) :
  m ≠ AssertFail → (∀ a, f a ≠ AssertFail) → m ≫= f ≠ AssertFail.
Proof. intros Hm Hf. destruct m as [a| |]; simpl; [apply Hf|done..]. Qed.

Lemma metric_not_AssertFail state type : metric state type ≠ AssertFail.
Proof.
  unfold metric. apply bind_not_AssertFail; [|done].
  rewrite map_fold_foldr.
  induction (map_to_list _) as [|[a i] L IH]; [done|].
  simpl. unfold addLive at 1. apply bind_not_AssertFail; [done|].
  intros m. unfold deref. by destruct (node _ i).
Qed.

Lemma renderActivity_not_AssertFail state type itemFmt numberFmt unit :
  renderActivity state type itemFmt numberFmt unit ≠ AssertFail.
Proof.
  unfold renderActivity.
  apply bind_not_AssertFail; [apply metric_not_AssertFail | done].
Qed.

Lemma showActivity_not_AssertFail state res type itemFmt numberFmt unit :
  showActivity state res type itemFmt numberFmt unit ≠ AssertFail.
Proof.
  unfold showActivity.
  apply bind_not_AssertFail; [apply renderActivity_not_AssertFail|].
  intros s. by destruct (empty s).
Qed.

Lemma redraw_not_AssertFail width state : redraw width state ≠ AssertFail.
Proof.
  unfold redraw, update, statusLine, getStatus. cbv zeta.
  repeat (apply bind_not_AssertFail;
          [first [apply showActivity_not_AssertFail
                 |apply renderActivity_not_AssertFail
                 |idtac]
          |intros ?]); done.
Qed.
End UpdateProperties.

(** ** The width of the written line (C7) *)

(** C7, as stated, fails for the width 0 of a terminal whose size could not
    be read: [width - 1] converted to [size_t] is the largest count, and the
    line is written whole. *)
Lemma update_width_zero :
  initWidth None = 0 ∧
  ∃ line, update (initWidth None) initState = Ok line ∧
          ¬ (Z.of_nat (String.length line) ≤ initWidth None - 1).
Proof.
  split; [reflexivity|].
  exists (CR +:+ ESC +:+ "[K"). split; [vm_compute; reflexivity|].
  vm_compute. intros Hle. by apply Hle.
Qed.

(** With width 0 every line shorter than the largest count is written as it
    was composed. *)
Lemma update_width_zero_whole `{Util} (state : State) (full : string) :
  statusLine state = Ok full →
  Z.of_nat (String.length full) < 2 ^ 64 →
  update (initWidth None) state = Ok full.
Proof.
  intros Hfull Hlen. unfold update. rewrite Hfull. simpl. f_equal.
  apply substr0_all. unfold to_size_t.
  change ((0 - 1) mod 2 ^ 64) with (2 ^ 64 - 1). lia.
Qed.

(** C7, amended: for every state and every width of at least 1, the line a
    render writes is the composed line cut to [width - 1] characters, escape
    sequences counted as any other character: it is at most [width - 1]
    long, and for width 20 a composed line of 19 characters or more is
    written as exactly 19 characters. A state without dangling iterators in
    the rendered categories does write a line. *)
Theorem update_width_bound `{Util} (width : Z) (state : State) :
  1 ≤ width < 2 ^ 31 →
  (renderable state → ∃ line, update width state = Ok line) ∧
  (∀ line, update width state = Ok line →
           Z.of_nat (String.length line) ≤ width - 1) ∧
  (∀ full, statusLine state = Ok full →
           update width state = Ok (substr0 full (width - 1)) ∧
           Z.of_nat (String.length (substr0 full (width - 1))) =
             Z.min (Z.of_nat (String.length full)) (width - 1)) ∧
  (width = 20 →
   ∀ full, statusLine state = Ok full → 19 ≤ Z.of_nat (String.length full) →
           ∃ line, update width state = Ok line ∧ String.length line = 19%nat).
Proof.
  intros Hw.
  assert (to_size_t (width - 1) = width - 1) as Hsize.
  { unfold to_size_t. apply Z.mod_small. lia. }
  assert (∀ full, statusLine state = Ok full →
            update width state = Ok (substr0 full (width - 1)) ∧
            Z.of_nat (String.length (substr0 full (width - 1))) =
              Z.min (Z.of_nat (String.length full)) (width - 1)) as Hcut.
  { intros full Hfull. unfold update. rewrite Hfull, Hsize. split; [done|].
    apply length_substr0. lia. }
  split; [apply update_defined|]. split; [|split; [exact Hcut|]].
  - intros line Hline. unfold update in Hline.
    apply bind_Ok in Hline as (full & Hfull & [= <-]).
    rewrite Hsize, length_substr0 by lia. lia.
  - intros -> full Hfull Hlong. destruct (Hcut full Hfull) as [Hu Hlen].
    eexists. split; [exact Hu|]. lia.
Qed.

Lemma update_width_bound_witness :
  ∃ line, update 20 exLogged = Ok line ∧ String.length line = 19%nat.
Proof.
  assert (1 ≤ 20 < 2 ^ 31) as Hw by lia.
  destruct (update_width_bound 20 exLogged Hw) as (_ & _ & _ & H20).
  apply (H20 eq_refl (CR +:+ "building foo: compiling x.c" +:+ ESC +:+ "[K")).
  - vm_compute. reflexivity.
  - vm_compute. discriminate.
Defined.

(** ** The order of the clauses (C8) *)

(** C8: the status is the non-empty ones of the seven clauses, in the order
    builds, copies, downloads, store optimisation, path verification,
    corrupted, untrusted, joined by [", "]; the copies clause starts with
    ["0 copied"] when only the byte metric is there. *)
Theorem getStatus_clause_order `{Util} (state : State) :
  renderable state →
  ∃ b s1 s2 d o v,
    renderActivity state actBuilds "%s built" "%d" 1 = Ok b ∧
    renderActivity state actCopyPaths "%s copied" "%d" 1 = Ok s1 ∧
    renderActivity state actCopyPath "%s MiB" "%.1f" MiB = Ok s2 ∧
    renderActivity state actDownload "%s MiB DL" "%.1f" MiB = Ok d ∧
    renderActivity state actOptimiseStore "%s paths optimised" "%d" 1 = Ok o ∧
    renderActivity state actVerifyPaths "%s paths verified" "%d" 1 = Ok v ∧
    getStatus state =
      Ok (join ", "
            (nonEmpty [b; copiedClause s1 s2; d; optimisedClause state o; v;
                       corruptedClause state; untrustedClause state])) ∧
    (s1 = "" → s2 ≠ "" → copiedClause s1 s2 = "0 copied (" +:+ s2 +:+ ")").
Proof.
  intros Hr.
  destruct (renderActivity_defined state actBuilds "%s built" "%d" 1)
    as [b Hb]; [apply Hr; set_solver|].
  destruct (renderActivity_defined state actCopyPaths "%s copied" "%d" 1)
    as [s1 H1]; [apply Hr; set_solver|].
  destruct (renderActivity_defined state actCopyPath "%s MiB" "%.1f" MiB)
    as [s2 H2]; [apply Hr; set_solver|].
  destruct (renderActivity_defined state actDownload "%s MiB DL" "%.1f" MiB)
    as [d Hd]; [apply Hr; set_solver|].
  destruct (renderActivity_defined state actOptimiseStore
              "%s paths optimised" "%d" 1) as [o Ho]; [apply Hr; set_solver|].
  destruct (renderActivity_defined state actVerifyPaths
              "%s paths verified" "%d" 1) as [v Hv]; [apply Hr; set_solver|].
  exists b, s1, s2, d, o, v. repeat (split; [assumption|]). split.
  - rewrite (getStatus_fold _ _ _ _ _ _ _ Hb H1 H2 Hd Ho Hv).
    by rewrite fold_clauses.
  - intros -> Hs2. unfold copiedClause. by destruct s2.
Qed.

Lemma getStatus_clause_order_witness :
  getStatus exDownloads =
    Ok ("0 copied (" +:+ ANSI_GREEN +:+ "1.0" +:+ ANSI_NORMAL +:+ "/2.0 MiB), "
          +:+ ANSI_BLUE +:+ "0.0" +:+ ANSI_NORMAL +:+ "/" +:+ ANSI_GREEN
          +:+ "0.0" +:+ ANSI_NORMAL +:+ "/0.0 MiB DL").
Proof.
  assert (renderable exDownloads) as Hr.
  { apply (getStatus_Ok_renderable _
      ("0 copied (" +:+ ANSI_GREEN +:+ "1.0" +:+ ANSI_NORMAL +:+ "/2.0 MiB), "
          +:+ ANSI_BLUE +:+ "0.0" +:+ ANSI_NORMAL +:+ "/" +:+ ANSI_GREEN
          +:+ "0.0" +:+ ANSI_NORMAL +:+ "/0.0 MiB DL")).
    vm_compute. reflexivity. }
  destruct (getStatus_clause_order exDownloads Hr)
    as (b & s1 & s2 & d & o & v & Hb & H1 & H2 & Hd & Ho & Hv & Hs & _).
  rewrite Hs.
  vm_compute in Hb, H1, H2, Hd, Ho, Hv.
  injection Hb as <-. injection H1 as <-. injection H2 as <-.
  injection Hd as <-. injection Ho as <-. injection Hv as <-.
  vm_compute. reflexivity.
Defined.

(** ** The list and its iterators *)

Lemma node_is_Some l i : is_Some (node l i) ↔ i ∈ l.*1.
Proof.
  induction l as [|[h a] l IH]; simpl.
  - rewrite elem_of_nil. split; [by intros [] | done].
  - rewrite elem_of_cons. destruct (decide (h = i)) as [->|Hne].
    + split; [by left | by eexists].
    + rewrite IH. split; [by right|]. by intros [Heq|Hin]; [destruct Hne|].
Qed.

Lemma node_None l i : node l i = None ↔ i ∉ l.*1.
Proof. rewrite <- node_is_Some, eq_None_not_Some. done. Qed.

Lemma node_app l n a i :
  node (l ++ [(n, a)]) i =
    match node l i with
    | Some x => Some x
    | None => if decide (n = i) then Some a else None
    end.
Proof.
  induction l as [|[h b] l IH]; simpl; [done|].
  by destruct (decide (h = i)).
Qed.

Lemma handles_erase l i : (erase l i).*1 = filter (λ h, h ≠ i) l.*1.
Proof.
  unfold erase. induction l as [|[h a] l IH]; [done|].
  rewrite fmap_cons. simpl. destruct (decide (h ≠ i)) as [Hne|Heq].
  - rewrite !filter_cons_True by done. by rewrite fmap_cons, IH.
  - by rewrite !filter_cons_False by done.
Qed.

Lemma node_erase l i j :
  node (erase l i) j = if decide (j = i) then None else node l j.
Proof.
  unfold erase. induction l as [|[h a] l IH]; simpl.
  - by destruct (decide (j = i)).
  - destruct (decide (h ≠ i)) as [Hne|Heq].
    + rewrite filter_cons_True by done. simpl.
      destruct (decide (h = j)) as [->|]; [|done].
      by rewrite decide_False by done.
    + rewrite filter_cons_False by done. apply dec_stable in Heq as ->.
      rewrite IH. destruct (decide (j = i)) as [->|]; [done|].
      by rewrite decide_False by done.
Qed.

Lemma assign_cons h b l i a :
  assign ((h, b) :: l) i a =
    (if decide (h = i) then (i, a) else (h, b)) :: assign l i a.
Proof. reflexivity. Qed.

Lemma handles_assign l i a : (assign l i a).*1 = l.*1.
Proof.
  induction l as [|[h b] l IH]; [done|].
  rewrite assign_cons, !fmap_cons, IH. simpl.
  by destruct (decide (h = i)) as [->|].
Qed.

Lemma node_assign l i a j :
  node (assign l i a) j =
    if decide (j = i)
    then match node l i with Some _ => Some a | None => None end
    else node l j.
Proof.
  induction l as [|[h b] l IH].
  - simpl. by destruct (decide (j = i)).
  - rewrite assign_cons.
    destruct (decide (h = i)) as [->|Hne]; simpl; rewrite IH;
      repeat case_decide; simplify_eq; done.
Qed.

Lemma emplace_lookup {V} (k k' : Z) (v : V) (m : gmap Z V) :
  emplace k v m !! k' =
    if decide (k = k') then Some (default v (m !! k)) else m !! k'.
Proof.
  unfold emplace. destruct (m !! k) eqn:Hk; simpl.
  - destruct (decide (k = k')) as [<-|]; done.
  - destruct (decide (k = k')) as [<-|].
    + by rewrite lookup_insert_eq.
    + by rewrite lookup_insert_ne.
Qed.

(** ** The per-category aggregates under [stopActivity] *)

Lemma subExpected_fold (m : gmap ActivityType ActivitiesByType.t)
    (ebt : gmap ActivityType Z) (type : ActivityType) :
  map_fold subExpected m ebt !!! type =
    match ebt !! type with
    | Some v =>
        ActivitiesByType.set_expected (m !!! type)
          (wrap64 (ActivitiesByType.expected (m !!! type) - v))
    | None => m !!! type
    end.
Proof.
  induction ebt as [|k v ebt Hk Hfold IH] using map_first_key_ind.
  - by rewrite map_fold_empty, lookup_empty.
  - rewrite map_fold_insert_first_key by done. unfold subExpected at 1.
    destruct (decide (k = type)) as [->|Hne].
    + rewrite lookup_total_insert_eq, lookup_insert_eq, IH, Hk. done.
    + rewrite lookup_total_insert_ne, lookup_insert_ne by done. apply IH.
Qed.

(** ** The callbacks keep the state well formed *)

Lemma wellFormed_init : wellFormed initState.
Proof.
  assert (∀ type, activitiesByType initState !!! type = ActivitiesByType.init)
    as Hempty.
  { intros type. unfold initState. cbn [activitiesByType].
    by rewrite lookup_total_empty. }
  constructor; unfold byTypeIts, baselineInRange; try rewrite Hempty; simpl;
    try done.
  - constructor.
  - intros i Hi. by apply elem_of_nil in Hi.
  - intros i Hi. by apply elem_of_nil in Hi.
Qed.

Section Preservation.
Context `{Util}.

Lemma byTypeIts_start state act type s type' :
  byTypeIts (startState state act type s) type' =
    if decide (type = type')
    then emplace act (nextNode state) (byTypeIts state type)
    else byTypeIts state type'.
Proof.
  unfold byTypeIts, startState. simpl.
  destruct (decide (type = type')) as [<-|Hne].
  - by rewrite lookup_total_insert_eq.
  - by rewrite lookup_total_insert_ne.
Qed.

Lemma handles_start state act type s :
  handles (startState state act type s) = handles state ++ [nextNode state].
Proof. unfold handles, startState. simpl. by rewrite fmap_app. Qed.

Lemma wellFormed_start state act type s :
  wellFormed state → its state !! act = None →
  wellFormed (startState state act type s).
Proof.
  intros Hwf Hfresh.
  assert (nextNode state ∉ handles state) as Hnew.
  { intros Hin%(wf_bound _ Hwf). lia. }
  assert (∀ type', byTypeIts state type' !! act = None) as Hnone.
  { intros type'. destruct (byTypeIts state type' !! act) eqn:Hb; [|done].
    apply (wf_byType _ Hwf) in Hb as (i & info & Hi & _). congruence. }
  assert (its (startState state act type s) = <[act := nextNode state]> (its state))
    as Hits.
  { unfold startState, emplace. simpl. by rewrite Hfresh. }
  assert (∀ i, node (activities (startState state act type s)) i =
               match node (activities state) i with
               | Some x => Some x
               | None => if decide (nextNode state = i)
                         then Some (ActInfo.init s type) else None
               end) as Hnode.
  { intros i. unfold startState. simpl. apply node_app. }
  constructor.
  - rewrite handles_start. apply NoDup_app. split; [apply Hwf|].
    split; [|apply NoDup_singleton].
    intros i Hi ->%list_elem_of_singleton. done.
  - intros i. rewrite handles_start, elem_of_app, list_elem_of_singleton.
    unfold startState. simpl. intros [Hi%(wf_bound _ Hwf)| ->]; lia.
  - intros act' i. rewrite Hits, handles_start, elem_of_app.
    destruct (decide (act = act')) as [<-|Hne].
    + rewrite lookup_insert_eq. intros [= <-]. right. by apply list_elem_of_singleton.
    + rewrite lookup_insert_ne by done. intros Hi. left. by eapply wf_its.
  - intros act1 act2 i. rewrite Hits.
    destruct (decide (act = act1)) as [<-|Hne1];
      destruct (decide (act = act2)) as [<-|Hne2]; [done| | |].
    + rewrite lookup_insert_eq, lookup_insert_ne by done.
      intros [= <-] Hi%(wf_its _ Hwf). done.
    + rewrite lookup_insert_eq, lookup_insert_ne by done.
      intros Hi%(wf_its _ Hwf) [= <-]. done.
    + rewrite !lookup_insert_ne by done. apply Hwf.
  - intros i. rewrite Hits, handles_start, elem_of_app, list_elem_of_singleton.
    intros [Hi| ->].
    + destruct (wf_onto _ Hwf i Hi) as [act' Hact']. exists act'.
      rewrite lookup_insert_ne; [done|]. intros <-. congruence.
    + exists act. by rewrite lookup_insert_eq.
  - intros type' act' i. rewrite byTypeIts_start. unfold startState. simpl.
    destruct (decide (type = type')) as [<-|Hne].
    + rewrite emplace_lookup. destruct (decide (act = act')) as [<-|Hne'].
      * rewrite Hnone. intros [= <-]. lia.
      * intros Hi%(wf_byType_bound _ Hwf). lia.
    + intros Hi%(wf_byType_bound _ Hwf). lia.
  - intros type' act' i'. rewrite byTypeIts_start, Hits.
    assert (act ≠ act' → byTypeIts state type' !! act' = Some i' →
      ∃ i info, <[act:=nextNode state]> (its state) !! act' = Some i ∧
        node (activities (startState state act type s)) i = Some info ∧
        ActInfo.type info = type' ∧
        (i' ∈ handles (startState state act type s) → i' = i)) as Hold.
    { intros Hne Hb. pose proof (wf_byType_bound _ Hwf _ _ _ Hb) as Hlt.
      destruct (wf_byType _ Hwf _ _ _ Hb) as (i & info & Hi & Hn & Ht & Hsame).
      exists i, info. rewrite lookup_insert_ne by done. rewrite Hnode, Hn.
      split_and!; try done.
      rewrite handles_start, elem_of_app, list_elem_of_singleton.
      intros [Hin| ->]; [auto | lia]. }
    destruct (decide (type = type')) as [<-|Hne].
    + rewrite emplace_lookup. destruct (decide (act = act')) as [<-|Hne'].
      * rewrite Hnone. intros [= <-]. exists (nextNode state), (ActInfo.init s type).
        rewrite lookup_insert_eq, Hnode.
        destruct (node (activities state) (nextNode state)) eqn:Hn.
        { destruct Hnew. apply node_is_Some. by eexists. }
        by rewrite decide_True.
      * by apply Hold.
    + destruct (decide (act = act')) as [<-|Hne']; [by rewrite Hnone|].
      by apply Hold.
  - intros act' i info. rewrite Hits, Hnode.
    destruct (decide (act = act')) as [<-|Hne].
    + rewrite lookup_insert_eq. intros [= <-].
      destruct (node (activities state) (nextNode state)) eqn:Hn.
      { destruct Hnew. apply node_is_Some. by eexists. }
      rewrite decide_True by done. intros [= <-]. simpl.
      rewrite byTypeIts_start, decide_True, emplace_lookup, decide_True by done.
      by eexists.
    + rewrite lookup_insert_ne by done. intros Hi.
      destruct (node (activities state) i) eqn:Hn.
      * intros [= <-]. destruct (wf_registered _ Hwf _ _ _ Hi Hn) as [i' Hi'].
        rewrite byTypeIts_start. case_decide; [|by eexists].
        subst. rewrite emplace_lookup, decide_False by done. by eexists.
      * apply (wf_its _ Hwf) in Hi. apply node_None in Hn. done.
  - intros type'. unfold startState. simpl.
    destruct (decide (type = type')) as [<-|Hne].
    + rewrite lookup_total_insert_eq. simpl. apply Hwf.
    + rewrite lookup_total_insert_ne by done. apply Hwf.
Qed.

Lemma subExpected_fold_its m ebt type :
  ActivitiesByType.its (map_fold subExpected m ebt !!! type) =
  ActivitiesByType.its (m !!! type).
Proof. rewrite subExpected_fold. by destruct (ebt !! type). Qed.

Lemma byTypeIts_stopFound state act i info type' :
  byTypeIts (stopFound state act i info) type' =
    if decide (ActInfo.type info = type')
    then delete act (byTypeIts state type')
    else byTypeIts state type'.
Proof.
  unfold byTypeIts, stopFound. simpl.
  destruct (decide (ActInfo.type info = type')) as [<-|Hne].
  - rewrite lookup_total_insert_eq. simpl.
    by rewrite subExpected_fold_its, lookup_total_insert_eq.
  - rewrite lookup_total_insert_ne by done.
    by rewrite subExpected_fold_its, lookup_total_insert_ne.
Qed.

Lemma baseline_stopFound state act i info type' :
  let b := activitiesByType state !!! type' in
  let b' := activitiesByType (stopFound state act i info) !!! type' in
  ActivitiesByType.done b' =
    (if decide (ActInfo.type info = type')
     then wrap64 (ActivitiesByType.done b + ActInfo.done info)
     else ActivitiesByType.done b) ∧
  ActivitiesByType.failed b' =
    (if decide (ActInfo.type info = type')
     then wrap64 (ActivitiesByType.failed b + ActInfo.failed info)
     else ActivitiesByType.failed b) ∧
  ActivitiesByType.expected b' =
    match ActInfo.expectedByType info !! type' with
    | Some v => wrap64 (ActivitiesByType.expected b - v)
    | None => ActivitiesByType.expected b
    end.
Proof.
  unfold stopFound. simpl.
  destruct (decide (ActInfo.type info = type')) as [<-|Hne].
  - rewrite lookup_total_insert_eq. simpl.
    rewrite subExpected_fold, lookup_total_insert_eq.
    by destruct (ActInfo.expectedByType info !! ActInfo.type info).
  - rewrite lookup_total_insert_ne by done.
    rewrite subExpected_fold, lookup_total_insert_ne by done.
    by destruct (ActInfo.expectedByType info !! type').
Qed.

Lemma handles_stopFound state act i info :
  handles (stopFound state act i info) = filter (λ h, h ≠ i) (handles state).
Proof. unfold handles, stopFound. simpl. apply handles_erase. Qed.

Lemma wellFormed_stopFound state act i info :
  wellFormed state → its state !! act = Some i →
  node (activities state) i = Some info →
  wellFormed (stopFound state act i info).
Proof.
  intros Hwf Hact Hinfo.
  assert (its (stopFound state act i info) = delete act (its state)) as Hits
    by done.
  assert (nextNode (stopFound state act i info) = nextNode state) as Hnext
    by done.
  assert (∀ j, node (activities (stopFound state act i info)) j =
               if decide (j = i) then None else node (activities state) j)
    as Hnode.
  { intros j. unfold stopFound. simpl. apply node_erase. }
  assert (∀ act' i', act' ≠ act → its state !! act' = Some i' → i' ≠ i)
    as Hother.
  { intros act' i' Hne Hi' ->. destruct Hne. by eapply wf_inj. }
  constructor.
  - rewrite handles_stopFound. apply NoDup_filter, Hwf.
  - intros j. rewrite handles_stopFound, Hnext, list_elem_of_filter.
    intros [_ Hj]. by apply Hwf.
  - intros act' i'. rewrite Hits, handles_stopFound, list_elem_of_filter.
    intros [Hne Hi']%lookup_delete_Some. split; [by eapply Hother|].
    by eapply wf_its.
  - intros act1 act2 j. rewrite Hits.
    intros [_ H1]%lookup_delete_Some [_ H2]%lookup_delete_Some.
    by eapply wf_inj.
  - intros j. rewrite handles_stopFound, Hits, list_elem_of_filter.
    intros [Hne Hj]. destruct (wf_onto _ Hwf j Hj) as [act' Hact'].
    exists act'. apply lookup_delete_Some. split; [|done].
    intros <-. congruence.
  - intros type' act' j. rewrite byTypeIts_stopFound, Hnext.
    case_decide; [intros [_ Hj]%lookup_delete_Some|intros Hj];
      by eapply wf_byType_bound.
  - intros type' act' j Hj.
    assert (byTypeIts state type' !! act' = Some j ∧ act' ≠ act) as [Hold Hne].
    { rewrite byTypeIts_stopFound in Hj. case_decide as Ht.
      - apply lookup_delete_Some in Hj as [Hne Hj]. done.
      - split; [done|]. intros ->.
        destruct (wf_byType _ Hwf _ _ _ Hj) as (i2 & info2 & Hi2 & Hn2 & Ht2 & _).
        congruence. }
    destruct (wf_byType _ Hwf _ _ _ Hold) as (i2 & info2 & Hi2 & Hn2 & Ht2 & Hsame).
    exists i2, info2. rewrite Hits, Hnode, handles_stopFound.
    rewrite lookup_delete_ne by done.
    rewrite decide_False by (by eapply Hother).
    split_and!; try done. intros [_ Hin]%list_elem_of_filter. auto.
  - intros act' j info'. rewrite Hits, Hnode.
    intros [Hne Hj]%lookup_delete_Some. case_decide; [done|]. intros Hn.
    destruct (wf_registered _ Hwf _ _ _ Hj Hn) as [j' Hj'].
    rewrite byTypeIts_stopFound. case_decide; [|by eexists].
    rewrite lookup_delete_ne by done. by eexists.
  - intros type'.
    destruct (baseline_stopFound state act i info type') as (-> & -> & _).
    case_decide; [split; apply wrap64_range | apply Hwf].
Qed.

Lemma wellFormed_moveToTail state act s2 state' :
  wellFormed state → moveToTail state act s2 = Ok state' →
  wellFormed state'.
Proof.
  intros Hwf. unfold moveToTail. destruct (its state !! act) as [i|] eqn:Hact;
    [|done].
  intros (info & Hinfo%deref_Ok & [= <-])%bind_Ok.
  set (n := nextNode state).
  set (st' := set_its _ _).
  assert (handles st' = filter (λ h, h ≠ i) (handles state) ++ [n]) as Hh.
  { unfold handles, st'. simpl. by rewrite fmap_app, handles_erase. }
  assert (its st' = <[act := n]> (its state)) as Hits by done.
  assert (nextNode st' = S n) as Hnext by done.
  assert (∀ type, byTypeIts st' type = byTypeIts state type) as Hby by done.
  assert (n ∉ handles state) as Hnew.
  { intros Hin%(wf_bound _ Hwf). unfold n in Hin. lia. }
  assert (∀ j, node (activities st') j =
               if decide (j = n) then Some (ActInfo.set_s2 info s2)
               else if decide (j = i) then None
               else node (activities state) j) as Hnode.
  { intros j. unfold st', n. simpl. rewrite node_app, node_erase.
    destruct (decide (j = nextNode state)) as [->|Hjn].
    - rewrite (decide_True (P := nextNode state = nextNode state)) by done.
      case_decide; [done|].
      destruct (node (activities state) (nextNode state)) eqn:Hn; [|done].
      destruct Hnew. apply node_is_Some. by eexists.
    - rewrite (decide_False (P := nextNode state = j)) by done.
      case_decide; [done|]. by destruct (node _ j). }
  assert (∀ act' i', act' ≠ act → its state !! act' = Some i' → i' ≠ i)
    as Hother.
  { intros act' i' Hne Hi' ->. destruct Hne. by eapply wf_inj. }
  assert (i ≠ n) as Hin.
  { intros ->. apply Hnew. by eapply wf_its. }
  constructor.
  - rewrite Hh. apply NoDup_app. split; [apply NoDup_filter, Hwf|].
    split; [|apply NoDup_singleton].
    intros j [_ Hj]%list_elem_of_filter ->%list_elem_of_singleton. done.
  - intros j. rewrite Hh, Hnext, elem_of_app, list_elem_of_filter,
      list_elem_of_singleton.
    intros [[_ Hj%(wf_bound _ Hwf)]| ->]; unfold n; lia.
  - intros act' j. rewrite Hits, Hh, elem_of_app, list_elem_of_filter,
      list_elem_of_singleton.
    destruct (decide (act = act')) as [<-|Hne].
    + rewrite lookup_insert_eq. intros [= <-]. by right.
    + rewrite lookup_insert_ne by done. intros Hj. left.
      split; [by eapply Hother | by eapply wf_its].
  - intros act1 act2 j. rewrite Hits.
    destruct (decide (act = act1)) as [<-|Hne1];
      destruct (decide (act = act2)) as [<-|Hne2]; [done| | |].
    + rewrite lookup_insert_eq, lookup_insert_ne by done.
      intros [= <-] Hj%(wf_its _ Hwf). done.
    + rewrite lookup_insert_eq, lookup_insert_ne by done.
      intros Hj%(wf_its _ Hwf) [= <-]. done.
    + rewrite !lookup_insert_ne by done. apply Hwf.
  - intros j. rewrite Hits, Hh, elem_of_app, list_elem_of_filter,
      list_elem_of_singleton.
    intros [[Hne Hj]| ->].
    + destruct (wf_onto _ Hwf j Hj) as [act' Hact']. exists act'.
      rewrite lookup_insert_ne; [done|]. intros <-. congruence.
    + exists act. by rewrite lookup_insert_eq.
  - intros type act' j. rewrite Hby, Hnext.
    intros Hj%(wf_byType_bound _ Hwf). unfold n. lia.
  - intros type act' j. rewrite Hby. intros Hj.
    pose proof (wf_byType_bound _ Hwf _ _ _ Hj) as Hlt. fold n in Hlt.
    destruct (wf_byType _ Hwf _ _ _ Hj) as (i2 & info2 & Hi2 & Hn2 & Ht2 & Hsame).
    destruct (decide (act = act')) as [<-|Hne].
    + assert (i2 = i) as -> by congruence.
      assert (info2 = info) as -> by congruence.
      exists n, (ActInfo.set_s2 info s2). rewrite Hits, lookup_insert_eq, Hnode.
      rewrite decide_True by done. split_and!; try done.
      rewrite Hh, elem_of_app, list_elem_of_filter, list_elem_of_singleton.
      intros [[Hne Hj']|Heq]; [|done]. destruct Hne. auto.
    + exists i2, info2. rewrite Hits, lookup_insert_ne by done. rewrite Hnode.
      assert (i2 ≠ n).
      { intros ->. apply Hnew. by eapply wf_its. }
      rewrite decide_False by done.
      rewrite decide_False by (by eapply Hother).
      split_and!; try done.
      rewrite Hh, elem_of_app, list_elem_of_filter, list_elem_of_singleton.
      intros [[_ Hj']|Heq]; [auto | lia].
  - intros act' j info'. rewrite Hits, Hnode, Hby.
    destruct (decide (act = act')) as [<-|Hne].
    + rewrite lookup_insert_eq. intros [= <-]. rewrite decide_True by done.
      intros [= <-]. simpl. by eapply wf_registered.
    + rewrite lookup_insert_ne by done. intros Hj.
      assert (j ≠ n).
      { intros ->. apply Hnew. by eapply wf_its. }
      rewrite decide_False by done.
      rewrite decide_False by (by eapply Hother).
      by eapply wf_registered.
  - intros type. apply (wf_range _ Hwf).
Qed.

(** A change that keeps the list's handles, the lookups and the category
    of every node. *)
Lemma wellFormed_same_shape state state' :
  wellFormed state →
  handles state' = handles state →
  nextNode state' = nextNode state →
  its state' = its state →
  (∀ type, byTypeIts state' type = byTypeIts state type) →
  (∀ type,
     ActivitiesByType.done (activitiesByType state' !!! type) =
       ActivitiesByType.done (activitiesByType state !!! type) ∧
     ActivitiesByType.failed (activitiesByType state' !!! type) =
       ActivitiesByType.failed (activitiesByType state !!! type)) →
  (∀ i info', node (activities state') i = Some info' →
     ∃ info, node (activities state) i = Some info ∧
             ActInfo.type info = ActInfo.type info') →
  wellFormed state'.
Proof.
  intros Hwf Hh Hnext Hits Hby Hbase Hnode. constructor.
  - rewrite Hh. apply Hwf.
  - rewrite Hh, Hnext. apply Hwf.
  - rewrite Hh, Hits. apply Hwf.
  - rewrite Hits. apply Hwf.
  - rewrite Hh, Hits. apply Hwf.
  - intros type. rewrite Hby, Hnext. apply Hwf.
  - intros type act i'. rewrite Hby, Hits, Hh. intros Hi'.
    destruct (wf_byType _ Hwf _ _ _ Hi') as (i & info & Hi & Hn & Ht & Hsame).
    assert (is_Some (node (activities state') i)) as [info' Hn'].
    { apply node_is_Some. fold (handles state'). rewrite Hh.
      apply node_is_Some. by eexists. }
    exists i, info'. split_and!; try done.
    destruct (Hnode _ _ Hn') as (info2 & Hn2 & Ht2). congruence.
  - intros act i info'. rewrite Hits. intros Hi Hn'.
    destruct (Hnode _ _ Hn') as (info & Hn & <-). rewrite Hby.
    by eapply wf_registered.
  - intros type. destruct (Hbase type) as [-> ->]. apply Hwf.
Qed.

Lemma wellFormed_assign state state' i info info' :
  wellFormed state →
  node (activities state) i = Some info →
  ActInfo.type info' = ActInfo.type info →
  activities state' = assign (activities state) i info' →
  nextNode state' = nextNode state →
  its state' = its state →
  (∀ type, byTypeIts state' type = byTypeIts state type) →
  (∀ type,
     ActivitiesByType.done (activitiesByType state' !!! type) =
       ActivitiesByType.done (activitiesByType state !!! type) ∧
     ActivitiesByType.failed (activitiesByType state' !!! type) =
       ActivitiesByType.failed (activitiesByType state !!! type)) →
  wellFormed state'.
Proof.
  intros Hwf Hn Ht Hact Hnext Hits Hby Hbase.
  apply (wellFormed_same_shape state); try done.
  - unfold handles. rewrite Hact. apply handles_assign.
  - intros j info2. rewrite Hact, node_assign, Hn.
    case_decide as Hj; [intros [= <-]; subst j; by exists info|].
    intros Hn2. by exists info2.
Qed.
End Preservation.

(** ** Reachable states *)

Lemma renderable_init : renderable initState.
Proof.
  intros type _ act i. unfold byTypeIts, initState. cbn [activitiesByType].
  rewrite lookup_total_empty. intros Hi. by destruct (lookup_empty_Some act i).
Qed.

Section Reachable.
Context `{Util}.

Lemma setExpected_keeps (m : gmap ActivityType ActivitiesByType.t)
    type v w type' :
  let m1 := subExpected type v m in
  let b' := (<[type := ActivitiesByType.set_expected (m1 !!! type) w]> m1)
              !!! type' in
  ActivitiesByType.its b' = ActivitiesByType.its (m !!! type') ∧
  ActivitiesByType.done b' = ActivitiesByType.done (m !!! type') ∧
  ActivitiesByType.failed b' = ActivitiesByType.failed (m !!! type').
Proof.
  unfold subExpected. simpl.
  destruct (decide (type = type')) as [<-|Hne].
  - by rewrite !lookup_total_insert_eq.
  - by rewrite !lookup_total_insert_ne.
Qed.

Lemma step_wellFormed width c state state' out :
  wellFormed state → freshStart c state →
  step width c state = Ok (state', out) →
  wellFormed state'.
Proof.
  intros Hwf Hfresh.
  destruct c as [act type s|act|act d e r f|act type e|act type fields]; simpl.
  - intros (-> & _)%redraw_Ok. by apply wellFormed_start.
  - unfold stopActivity. intros (st1 & Hstop & (-> & _)%redraw_Ok)%bind_Ok.
    unfold stopState in Hstop. destruct (its state !! act) as [i|] eqn:Hact.
    + apply bind_Ok in Hstop as (info & Hinfo%deref_Ok & [= <-]).
      by apply wellFormed_stopFound.
    + by injection Hstop as <-.
  - unfold progress. intros (st1 & Hp & (-> & _)%redraw_Ok)%bind_Ok.
    unfold progressState in Hp. destruct (its state !! act) as [i|] eqn:Hact;
      [|done].
    apply bind_Ok in Hp as (info & Hinfo%deref_Ok & [= <-]).
    by apply (wellFormed_assign state _ i info
                (ActInfo.set_counters info d e r f)).
  - unfold setExpected. intros (st1 & Hp & (-> & _)%redraw_Ok)%bind_Ok.
    unfold setExpectedState in Hp.
    destruct (its state !! act) as [i|] eqn:Hact; [|done].
    apply bind_Ok in Hp as (info & Hinfo%deref_Ok & [= <-]).
    apply (wellFormed_assign state _ i info
             (ActInfo.set_expectedByType info
                (<[type := e]> (ActInfo.expectedByType info)))); try done.
    + intros type'. unfold byTypeIts at 1. simpl.
      apply setExpected_keeps.
    + intros type'. simpl. split; apply setExpected_keeps.
  - unfold result. destruct type.
    + intros (n & _ & (-> & _)%redraw_Ok)%bind_Ok.
      apply (wellFormed_same_shape state); try done.
      intros i info' Hn. by exists info'.
    + intros (s & _ & Hr)%bind_Ok. destruct (negb (empty (trim s))).
      * apply bind_Ok in Hr as (st1 & Hm & (-> & _)%redraw_Ok).
        by eapply wellFormed_moveToTail.
      * by injection Hr as <- <-.
    + intros (-> & _)%redraw_Ok.
      apply (wellFormed_same_shape state); try done.
      intros i info' Hn. by exists info'.
    + intros (-> & _)%redraw_Ok.
      apply (wellFormed_same_shape state); try done.
      intros i info' Hn. by exists info'.
    + by intros [= <- <-].
Qed.

Lemma step_renderable width c state state' out :
  renderable state → step width c state = Ok (state', out) →
  renderable state'.
Proof.
  intros Hr.
  destruct c as [act type s|act|act d e r f|act type e|act type fields]; simpl.
  - by intros (-> & ? & _)%redraw_Ok.
  - unfold stopActivity. by intros (st1 & _ & (-> & ? & _)%redraw_Ok)%bind_Ok.
  - unfold progress. by intros (st1 & _ & (-> & ? & _)%redraw_Ok)%bind_Ok.
  - unfold setExpected. by intros (st1 & _ & (-> & ? & _)%redraw_Ok)%bind_Ok.
  - unfold result. destruct type.
    + by intros (n & _ & (-> & ? & _)%redraw_Ok)%bind_Ok.
    + intros (s & _ & Hs)%bind_Ok. destruct (negb (empty (trim s))).
      * by apply bind_Ok in Hs as (st1 & _ & (-> & ? & _)%redraw_Ok).
      * by injection Hs as <- <-.
    + by intros (-> & ? & _)%redraw_Ok.
    + by intros (-> & ? & _)%redraw_Ok.
    + by intros [= <- <-].
Qed.



Lemma reachable_wellFormed width state :
  reachable width freshStart state → wellFormed state.
Proof.
  induction 1 as [|state c state' out _ IH Hok Hstep].
  - apply wellFormed_init.
  - by eapply step_wellFormed.
Qed.

Lemma reachable_renderable width ok state :
  reachable width ok state → renderable state.
Proof.
  induction 1 as [|state c state' out _ IH Hok Hstep].
  - apply renderable_init.
  - by eapply step_renderable.
Qed.

Lemma reachable_run width ok cs state state' out :
  reachable width ok state → allowed width ok cs state →
  run width cs state = Ok (state', out) →
  reachable width ok state'.
Proof.
  revert state out. induction cs as [|c cs IH]; intros state out Hr; simpl.
  - by intros _ [= <- <-].
  - intros [Hok Hcs] (r & Hstep & Hrun)%bind_Ok. rewrite Hstep in Hcs.
    apply bind_Ok in Hrun as (r' & Hrun & [= <- <-]).
    apply (IH r.1 r'.2); [|done|by destruct r'].
    destruct r as [st1 out1]. by eapply reachable_step.
Qed.

Lemma wellFormed_globallyConsistent state :
  wellFormed state → globallyConsistent state.
Proof.
  intros Hwf. split.
  - intros act i Hi%(wf_its _ Hwf).
    apply list_elem_of_lookup in Hi as [p Hp]. exists p. split; [done|].
    intros q Hq. eapply NoDup_lookup; [apply Hwf|done..].
  - intros p i Hp.
    destruct (wf_onto _ Hwf i) as [act Hact].
    { apply list_elem_of_lookup. by exists p. }
    exists act. split; [done|]. intros act' Hact'. by eapply wf_inj.
Qed.
End Reachable.

(** ** The metric of a category (C1) *)




(** ** The list and the lookups (C2) *)

(** C2, as stated, fails. After the same id is started twice and a build
    log line is recorded for it, the list has a position no id maps to (the
    second start is not rejected, and [emplace] leaves the lookup as it
    was), and the per-category lookup still holds the iterator of the node
    that the build log line erased. *)
Lemma lookups_not_consistent :
  reachable 80 anyCall exTwice ∧
  (handles exTwice !! 0%nat = Some 1%nat ∧ ¬ oneId exTwice 1) ∧
  (byTypeIts exTwice actUnknown !! 1 = Some 0%nat ∧ ¬ onePosition exTwice 0) ∧
  ¬ consistent exTwice.
Proof.
  assert (¬ oneId exTwice 1) as Hid.
  { intros (act & Hact & _).
    assert (its exTwice = {[1 := 2%nat]}) as Hits by (vm_compute; reflexivity).
    rewrite Hits in Hact. apply lookup_singleton_Some in Hact as [_ Hbad].
    discriminate Hbad. }
  assert (¬ onePosition exTwice 0) as Hpos.
  { intros (p & Hp & _).
    assert (handles exTwice = [1; 2]%nat) as Hh by (vm_compute; reflexivity).
    rewrite Hh in Hp. destruct p as [|[|[|p]]]; discriminate Hp. }
  assert (handles exTwice !! 0%nat = Some 1%nat) as H0
    by (vm_compute; reflexivity).
  assert (byTypeIts exTwice actUnknown !! 1 = Some 0%nat) as H1
    by (vm_compute; reflexivity).
  split; [|split; [exact (conj H0 Hid)|split; [exact (conj H1 Hpos)|]]].
  - eapply (reachable_run 80 anyCall
      [Start 1 actUnknown "a"; Start 1 actUnknown "b";
       Result 1 resBuildLogLine [tString "x"]] initState exTwice).
    + apply reachable_init.
    + vm_compute. tauto.
    + vm_compute. reflexivity.
  - intros [[_ Hg] _]. apply Hid. exact (Hg _ _ H0).
Qed.

(** C2, amended: after every sequence of calls that return, each activity
    started under an id not in use, every id of the global lookup maps to
    exactly one position of the list and every position of the list is
    mapped by exactly one id of the global lookup. *)
Theorem reachable_globallyConsistent `{Util} (width : Z) (state : State) :
  reachable width freshStart state → globallyConsistent state.
Proof.
  intros Hr. by eapply wellFormed_globallyConsistent, reachable_wellFormed.
Qed.

Lemma reachable_exLogged : reachable 80 freshStart exLogged.
Proof.
  eapply (reachable_run 80 freshStart
    [Start 7 actUnknown "building foo";
     Result 7 resBuildLogLine [tString "compiling x.c"]] initState exLogged).
  - apply reachable_init.
  - vm_compute. tauto.
  - vm_compute. reflexivity.
Qed.

Lemma reachable_globallyConsistent_witness : globallyConsistent exLogged.
Proof.
  apply (reachable_globallyConsistent 80 exLogged). apply reachable_exLogged.
Defined.

(** ** Rendering after a callback *)

Lemma liveIts_handles state type :
  liveIts state type ↔
  ∀ act i, byTypeIts state type !! act = Some i → i ∈ handles state.
Proof.
  unfold liveIts, handles. split; intros Hl act i Hi.
  - apply node_is_Some. by eapply Hl.
  - apply node_is_Some. by eapply Hl.
Qed.

Lemma renderable_same_handles state state' :
  handles state' = handles state →
  (∀ type, byTypeIts state' type = byTypeIts state type) →
  renderable state → renderable state'.
Proof.
  intros Hh Hby Hr type Ht. apply liveIts_handles. rewrite Hh, Hby.
  apply liveIts_handles. by apply Hr.
Qed.

Section Callbacks.
Context `{Util}.

Lemma renderable_start state act type s :
  renderable state → renderable (startState state act type s).
Proof.
  intros Hr type' Ht. apply liveIts_handles. intros act' i.
  rewrite byTypeIts_start, handles_start, elem_of_app, list_elem_of_singleton.
  assert (∀ j, byTypeIts state type' !! act' = Some j → j ∈ handles state)
    as Hold by (by apply liveIts_handles, Hr).
  destruct (decide (type = type')) as [<-|Hne]; [|by left; apply Hold].
  rewrite emplace_lookup. destruct (decide (act = act')) as [<-|Hne'];
    [|by left; apply Hold].
  destruct (byTypeIts state type !! act) as [j|] eqn:Hj; simpl.
  - intros [= <-]. left. by apply Hold.
  - intros [= <-]. by right.
Qed.

Lemma renderable_progressState state act d e r f state' :
  progressState state act d e r f = Ok state' →
  renderable state → renderable state'.
Proof.
  unfold progressState. destruct (its state !! act) as [i|]; [|done].
  intros (info & _ & [= <-])%bind_Ok. apply renderable_same_handles; [|done].
  unfold handles. simpl. apply handles_assign.
Qed.

Lemma renderable_setExpectedState state act type e state' :
  setExpectedState state act type e = Ok state' →
  renderable state → renderable state'.
Proof.
  unfold setExpectedState. destruct (its state !! act) as [i|]; [|done].
  intros (info & _ & [= <-])%bind_Ok. apply renderable_same_handles.
  - unfold handles. simpl. apply handles_assign.
  - intros type'. unfold byTypeIts at 1. simpl. apply setExpected_keeps.
Qed.

Lemma result_logline_blank width state act text :
  trim text = "" →
  result width state act resBuildLogLine [tString text] = Ok (state, []).
Proof. intros Ht. unfold result. simpl. by rewrite Ht. Qed.
End Callbacks.

(** ** Starting an activity (C3) *)

(** C3, as stated, fails: [startActivity] has no assertion, and a start
    under an id already in the registry returns. *)
Lemma startActivity_duplicate_returns :
  its exBuilding !! 1 = Some 0%nat ∧
  ∃ out, startActivity 80 exBuilding 1 actBuilds "again" =
           Ok (startState exBuilding 1 actBuilds "again", out).
Proof.
  split; [vm_compute; reflexivity|]. eexists. vm_compute. reflexivity.
Qed.

(** C3, amended: a start never fails an assertion. Under an id already in
    the registry it does not fail either, and the global lookup keeps the
    entry it had for the id; under a fresh id it puts a new activity with
    empty secondary label and all four counters zero at the tail of the
    list, and the global lookup maps the id to it. From a state that can be
    rendered the call returns, having written one line. *)
Theorem startActivity_no_duplicate_check `{Util} (width : Z) (state : State)
    (act : ActivityId) (type : ActivityType) (s : string) :
  startActivity width state act type s ≠ AssertFail ∧
  (renderable state →
   ∃ line, startActivity width state act type s =
             Ok (startState state act type s, [line])) ∧
  (∀ i, its state !! act = Some i →
        its (startState state act type s) !! act = Some i) ∧
  (its state !! act = None →
   activities (startState state act type s) =
     activities state ++ [(nextNode state, ActInfo.mk s "" type 0 0 0 0 ∅)] ∧
   its (startState state act type s) !! act = Some (nextNode state)).
Proof.
  split_and!.
  - apply redraw_not_AssertFail.
  - intros Hr. unfold startActivity.
    destruct (redraw_defined width (startState state act type s))
      as (line & _ & Hline); [by apply renderable_start|].
    by exists line.
  - intros i Hi. unfold startState, emplace. simpl. by rewrite Hi.
  - intros Hnone. split; [done|].
    unfold startState, emplace. simpl. rewrite Hnone. apply lookup_insert_eq.
Qed.

Lemma startActivity_no_duplicate_check_witness :
  ∃ line,
    startActivity 80 exBuilding 2 actDownload "fetching" =
      Ok (startState exBuilding 2 actDownload "fetching", [line]) ∧
    activities (startState exBuilding 2 actDownload "fetching") =
      activities exBuilding
        ++ [(1%nat, ActInfo.mk "fetching" "" actDownload 0 0 0 0 ∅)].
Proof.
  destruct (startActivity_no_duplicate_check 80 exBuilding 2 actDownload
              "fetching") as (_ & Hret & _ & Hfresh).
  destruct Hret as [line Hline].
  { apply (reachable_renderable 80 anyCall).
    eapply (reachable_run 80 anyCall
      [Start 1 actBuilds "building foo"; Progress 1 1 3 0 0] initState).
    - apply reachable_init.
    - vm_compute. tauto.
    - vm_compute. reflexivity. }
  exists line. split; [exact Hline|].
  destruct Hfresh as [Hact _]; [vm_compute; reflexivity|]. exact Hact.
Defined.

(** ** Unknown ids and progress (C6) *)

(** C6: [progress] under an id that is not in the registry fails its
    assertion, [stopActivity] under the same id does not: it is the redraw
    of the unchanged state. Under a live id [progress] replaces the four
    counters of the activity by its arguments, whatever they were. *)
Theorem progress_overwrites `{Util} (width : Z) (state : State)
    (act : ActivityId) (done expected running failed : uint64) :
  (its state !! act = None →
   progress width state act done expected running failed = AssertFail ∧
   stopActivity width state act ≠ AssertFail ∧
   stopActivity width state act = redraw width state) ∧
  (∀ i info,
     its state !! act = Some i → node (activities state) i = Some info →
     ∃ state',
       progressState state act done expected running failed = Ok state' ∧
       node (activities state') i =
         Some (ActInfo.mk (ActInfo.s info) (ActInfo.s2 info) (ActInfo.type info)
                 done expected running failed (ActInfo.expectedByType info)) ∧
       (∀ j, j ≠ i → node (activities state') j = node (activities state) j) ∧
       handles state' = handles state ∧
       (renderable state →
        ∃ line, progress width state act done expected running failed =
                  Ok (state', [line]))).
Proof.
  split.
  - intros Hnone. unfold progress, progressState, stopActivity, stopState.
    rewrite Hnone. simpl. split_and!; [done| |done].
    apply redraw_not_AssertFail.
  - intros i info Hi Hinfo. eexists. split_and!.
    + unfold progressState, deref. rewrite Hi, Hinfo. simpl. reflexivity.
    + simpl. rewrite node_assign, Hinfo. by rewrite decide_True.
    + intros j Hj. simpl. rewrite node_assign. by rewrite decide_False.
    + unfold handles. simpl. apply handles_assign.
    + intros Hr. unfold progress, progressState, deref. rewrite Hi, Hinfo. simpl.
      match goal with |- ∃ line, redraw _ ?st = _ =>
        destruct (redraw_defined width st) as (line & _ & Hline) end.
      { eapply renderable_progressState; [|exact Hr].
        unfold progressState, deref. rewrite Hi, Hinfo. simpl. reflexivity. }
      by exists line.
Qed.

Lemma progress_overwrites_witness :
  progress 80 exBuilding 9 1 1 1 1 = AssertFail ∧
  (∃ line, stopActivity 80 exBuilding 9 = Ok (exBuilding, [line])) ∧
  ∃ state',
    progressState exBuilding 1 2 3 0 0 = Ok state' ∧
    node (activities state') 0 =
      Some (ActInfo.mk "building foo" "" actBuilds 2 3 0 0 ∅).
Proof.
  destruct (progress_overwrites 80 exBuilding 9 1 1 1 1) as [Hunknown _].
  destruct Hunknown as (Hfail & _ & Hstop); [vm_compute; reflexivity|].
  destruct (progress_overwrites 80 exBuilding 1 2 3 0 0) as [_ Hlive].
  destruct (Hlive 0%nat (ActInfo.mk "building foo" "" actBuilds 1 3 0 0 ∅))
    as (state' & Hstate' & Hnode' & _); [vm_compute; reflexivity..|].
  split; [exact Hfail|]. split.
  - rewrite Hstop. eexists. vm_compute. reflexivity.
  - exists state'. split; [exact Hstate' | exact Hnode'].
Defined.

(** ** Stopping an unknown id (C10) *)

(** C10: [stopActivity] under an id that is not in the registry leaves the
    state as it is and still redraws: what it returns is the unchanged state
    and the one line [update] makes of it. *)
Theorem stopActivity_unknown `{Util} (width : Z) (state : State)
    (act : ActivityId) :
  its state !! act = None →
  stopState state act = Ok state ∧
  (∀ state' out,
     stopActivity width state act = Ok (state', out) →
     state' = state ∧ ∃ line, update width state = Ok line ∧ out = [line]) ∧
  (renderable state →
   ∃ line, update width state = Ok line ∧
           stopActivity width state act = Ok (state, [line])).
Proof.
  intros Hnone.
  assert (stopState state act = Ok state) as Hstop.
  { unfold stopState. by rewrite Hnone. }
  split; [exact Hstop|]. unfold stopActivity. rewrite Hstop. simpl. split.
  - intros state' out (-> & _ & line & -> & Hline)%redraw_Ok.
    split; [done|]. by exists line.
  - intros Hr. by apply redraw_defined.
Qed.

Lemma stopActivity_unknown_witness :
  ∃ line, update 80 exBuilding = Ok line ∧
          stopActivity 80 exBuilding 9 = Ok (exBuilding, [line]).
Proof.
  destruct (stopActivity_unknown 80 exBuilding 9) as (_ & _ & Hredraw).
  - vm_compute. reflexivity.
  - apply Hredraw. apply (reachable_renderable 80 anyCall).
    eapply (reachable_run 80 anyCall
      [Start 1 actBuilds "building foo"; Progress 1 1 3 0 0] initState).
    + apply reachable_init.
    + vm_compute. tauto.
    + vm_compute. reflexivity.
Defined.

(** ** Build log lines (C9) *)

(** Where the category of the activity is not one [getStatus] renders, the
    build log line does what it is meant to: the activity, with its new
    secondary label, is the last of the list, and the line is redrawn. *)
Lemma result_logline_moves `{Util} (width : Z) (state : State)
    (act : ActivityId) (text : string) (i : nat) (info : ActInfo.t) :
  reachable width freshStart state →
  its state !! act = Some i →
  node (activities state) i = Some info →
  ActInfo.type info ∉ rendered →
  trim text ≠ "" →
  ∃ state' line,
    result width state act resBuildLogLine [tString text] =
      Ok (state', [line]) ∧
    activities state' =
      erase (activities state) i
        ++ [(nextNode state, ActInfo.set_s2 info (trim text))] ∧
    its state' !! act = Some (nextNode state) ∧
    update width state' = Ok line.
Proof.
  intros Hreach Hi Hinfo Htype Htext.
  pose proof (reachable_wellFormed _ _ Hreach) as Hwf.
  pose proof (reachable_renderable _ _ _ Hreach) as Hr.
  unfold result. simpl.
  assert (negb (empty (trim text)) = true) as ->.
  { destruct (trim text); [done | reflexivity]. }
  unfold moveToTail, deref. rewrite Hi, Hinfo. simpl.
  match goal with |- ∃ st' line, redraw _ ?st = _ ∧ _ =>
    destruct (redraw_defined width st) as (line & Hline & Hredraw) end.
  - intros type Ht. apply liveIts_handles. intros act' j Hj.
    change (j ∈ (erase (activities state) i
                   ++ [(nextNode state, ActInfo.set_s2 info (trim text))]).*1).
    rewrite fmap_app, handles_erase, elem_of_app, list_elem_of_filter.
    left. change (byTypeIts state type !! act' = Some j) in Hj.
    assert (j ∈ handles state) as Hin by (by eapply liveIts_handles, Hj; apply Hr).
    split; [|exact Hin]. intros ->.
    destruct (wf_byType _ Hwf _ _ _ Hj) as (i2 & info2 & Hi2 & Hn2 & Ht2 & Hsame).
    assert (i = i2) as <- by (by apply Hsame).
    apply Htype. congruence.
  - eexists _, line. split; [exact Hredraw|]. split_and!; try done.
    simpl. apply lookup_insert_eq.
Qed.

(** Where the category is one [getStatus] renders, the lookup of the
    category is left with the iterator of the erased node, and the [update]
    of the build log line goes through it. *)
Lemma result_logline_rendered `{Util} (width : Z) (state : State)
    (act : ActivityId) (text : string) (i : nat) (info : ActInfo.t) :
  reachable width freshStart state →
  its state !! act = Some i →
  node (activities state) i = Some info →
  ActInfo.type info ∈ rendered →
  trim text ≠ "" →
  result width state act resBuildLogLine [tString text] = Undefined.
Proof.
  intros Hreach Hi Hinfo Htype Htext.
  pose proof (reachable_wellFormed _ _ Hreach) as Hwf.
  pose proof (reachable_renderable _ _ _ Hreach) as Hr.
  assert (byTypeIts state (ActInfo.type info) !! act = Some i) as Hreg.
  { destruct (wf_registered _ Hwf _ _ _ Hi Hinfo) as [j Hj].
    destruct (wf_byType _ Hwf _ _ _ Hj) as (i2 & info2 & Hi2 & _ & _ & Hsame).
    rewrite Hj. f_equal. rewrite Hi in Hi2. injection Hi2 as <-.
    apply Hsame. by eapply liveIts_handles, Hj; apply Hr. }
  unfold result. simpl.
  assert (negb (empty (trim text)) = true) as ->.
  { destruct (trim text); [done | reflexivity]. }
  unfold moveToTail, deref. rewrite Hi, Hinfo. simpl.
  match goal with |- redraw _ ?st = _ =>
    pose proof (redraw_not_AssertFail width st) as Hna;
    destruct (redraw width st) as [[st' out]| |] eqn:Hredraw; [|done..] end.
  exfalso. apply redraw_Ok in Hredraw as (_ & Hr' & _).
  pose proof (proj1 (liveIts_handles _ _) (Hr' _ Htype) act i Hreg) as Hin.
  change (i ∈ (erase (activities state) i
                 ++ [(nextNode state, ActInfo.set_s2 info (trim text))]).*1)
    in Hin.
  rewrite fmap_app, handles_erase, elem_of_app, list_elem_of_filter in Hin.
  destruct Hin as [[Hne _]|Hin%list_elem_of_singleton]; [done|].
  simpl in Hin. subst i.
  apply (wf_its _ Hwf), (wf_bound _ Hwf) in Hi. lia.
Qed.

(** C9 at a build whose category is rendered: the build log line moves the
    activity to a new node at the tail, the lookup of its category keeps the
    iterator of the erased node, and the [update] that follows goes through
    it. *)
Lemma result_logline_dangling :
  its exBuilding !! 1 = Some 0%nat ∧
  trim "compiling x.c" = "compiling x.c" ∧
  (∃ state',
     moveToTail exBuilding 1 "compiling x.c" = Ok state' ∧
     activities state' =
       [(1%nat, ActInfo.mk "building foo" "compiling x.c" actBuilds 1 3 0 0 ∅)] ∧
     byTypeIts state' actBuilds !! 1 = Some 0%nat ∧
     node (activities state') 0 = None ∧
     update 80 state' = Undefined) ∧
  result 80 exBuilding 1 resBuildLogLine [tString "compiling x.c"] = Undefined.
Proof.
  split; [vm_compute; reflexivity|].
  split; [vm_compute; reflexivity|].
  split; [|vm_compute; reflexivity].
  eexists. split; [vm_compute; reflexivity|].
  split_and!; vm_compute; reflexivity.
Qed.

(** ** Declared expectations (C5) *)

Lemma assign_assign l i a b : assign (assign l i a) i b = assign l i b.
Proof.
  induction l as [|[h c] l IH]; [done|].
  rewrite !assign_cons. destruct (decide (h = i)) as [->|Hne].
  - rewrite assign_cons, decide_True by done. by rewrite IH.
  - rewrite assign_cons, decide_False by done. by rewrite IH.
Qed.

Lemma wrap64_replace (x v1 v2 : Z) :
  wrap64 (wrap64 (wrap64 (x + v1) - v1) + v2) = wrap64 (x + v2).
Proof.
  rewrite wrap64_add_l. unfold wrap64.
  replace (x + v2) with ((x + v1) + (v2 - v1)) by lia.
  rewrite <- (Zplus_mod_idemp_l (x + v1)). f_equal. lia.
Qed.

Section Expectations.
Context `{Util}.

(** The state [setExpected] leaves: the activity's declaration for the
    category replaced, the category's aggregate moved by the difference. *)
Lemma setExpectedState_eq state act type v i info :
  its state !! act = Some i → node (activities state) i = Some info →
  let b := activitiesByType state !!! type in
  setExpectedState state act type v =
    Ok (mkState
          (assign (activities state) i
             (ActInfo.set_expectedByType info
                (<[type := v]> (ActInfo.expectedByType info))))
          (nextNode state) (its state)
          (<[type := ActivitiesByType.set_expected b
                       (wrap64 (wrap64 (ActivitiesByType.expected b
                                        - at0 (ActInfo.expectedByType info) type)
                                + v))]>
             (activitiesByType state))
          (filesLinked state) (bytesLinked state) (corruptedPaths state)
          (untrustedPaths state)).
Proof.
  intros Hi Hinfo b. unfold setExpectedState, deref. rewrite Hi, Hinfo. simpl.
  unfold set_activities, set_activitiesByType, subExpected. simpl.
  rewrite lookup_total_insert_eq, insert_insert_eq. reflexivity.
Qed.
End Expectations.

(** C5: for a live activity, [setExpected] with [v1] and then with [v2]
    returns what a single [setExpected] with [v2] returns, state and line;
    the activity's declaration for the category is [v2], and the category's
    aggregate is what it was, less the activity's earlier declaration, plus
    [v2]. *)
Theorem setExpected_twice `{Util} (width : Z) (state : State)
    (act : ActivityId) (type : ActivityType) (v1 v2 : uint64)
    (i : nat) (info : ActInfo.t) :
  its state !! act = Some i →
  node (activities state) i = Some info →
  renderable state →
  ∃ state1 out1 state2 out2,
    setExpected width state act type v1 = Ok (state1, out1) ∧
    setExpected width state1 act type v2 = Ok (state2, out2) ∧
    setExpected width state act type v2 = Ok (state2, out2) ∧
    (∃ info2, node (activities state2) i = Some info2 ∧
              ActInfo.expectedByType info2 !! type = Some v2) ∧
    ActivitiesByType.expected (activitiesByType state2 !!! type) =
      wrap64 (ActivitiesByType.expected (activitiesByType state !!! type)
              - at0 (ActInfo.expectedByType info) type + v2).
Proof.
  intros Hi Hinfo Hr.
  pose proof (setExpectedState_eq state act type v1 i info Hi Hinfo) as H1.
  pose proof (setExpectedState_eq state act type v2 i info Hi Hinfo) as H2.
  simpl in H1, H2.
  set (st1 := mkState _ _ _ _ _ _ _ _) in H1.
  set (st2 := mkState _ _ _ _ _ _ _ _) in H2.
  assert (node (activities st1) i =
            Some (ActInfo.set_expectedByType info
                    (<[type := v1]> (ActInfo.expectedByType info)))) as Hinfo1.
  { unfold st1. simpl. rewrite node_assign, Hinfo. by rewrite decide_True. }
  pose proof (setExpectedState_eq st1 act type v2 i _ Hi Hinfo1) as H12.
  simpl in H12.
  assert (setExpectedState st1 act type v2 = Ok st2) as H12'.
  { rewrite H12. unfold st2. f_equal. f_equal.
    - by rewrite assign_assign, insert_insert_eq.
    - rewrite lookup_total_insert_eq, insert_insert_eq. simpl. f_equal. f_equal.
      unfold at0. rewrite lookup_insert_eq. simpl.
      apply wrap64_replace. }
  destruct (redraw_defined width st1) as (line1 & _ & Hline1).
  { exact (renderable_setExpectedState state act type v1 st1 H1 Hr). }
  destruct (redraw_defined width st2) as (line2 & _ & Hline2).
  { exact (renderable_setExpectedState state act type v2 st2 H2 Hr). }
  exists st1, [line1], st2, [line2]. unfold setExpected.
  rewrite H1, H2, H12'. simpl. split_and!; try done.
  - eexists. split.
    + unfold st2. simpl. rewrite node_assign, Hinfo. by rewrite decide_True.
    + simpl. apply lookup_insert_eq.
  - unfold st2. simpl. rewrite lookup_total_insert_eq. simpl.
    by rewrite wrap64_add_l.
Qed.

Lemma setExpected_twice_witness :
  ∃ state1 out1 state2 out2,
    setExpected 80 exBuilding 1 actDownload 10 = Ok (state1, out1) ∧
    setExpected 80 state1 1 actDownload 4 = Ok (state2, out2) ∧
    setExpected 80 exBuilding 1 actDownload 4 = Ok (state2, out2) ∧
    ActivitiesByType.expected (activitiesByType state2 !!! actDownload) = 4.
Proof.
  destruct (setExpected_twice 80 exBuilding 1 actDownload 10 4 0%nat
              (ActInfo.mk "building foo" "" actBuilds 1 3 0 0 ∅))
    as (st1 & o1 & st2 & o2 & H1 & H12 & H2 & _ & He).
  - vm_compute. reflexivity.
  - vm_compute. reflexivity.
  - apply (reachable_renderable 80 anyCall).
    eapply (reachable_run 80 anyCall
      [Start 1 actBuilds "building foo"; Progress 1 1 3 0 0] initState).
    + apply reachable_init.
    + vm_compute. tauto.
    + vm_compute. reflexivity.
  - exists st1, o1, st2, o2. split_and!; [exact H1 | exact H12 | exact H2 |].
    rewrite He. vm_compute. reflexivity.
Defined.

(** ** Stopping a live activity (C4) *)

Lemma total_cons f a l : total f (a :: l) = f a + total f l.
Proof. reflexivity. Qed.

Lemma total_Permutation f l1 l2 : l1 ≡ₚ l2 → total f l1 = total f l2.
Proof.
  induction 1 as [|a l1 l2 _ IH|a b l|l1 l2 l3 _ IH1 _ IH2]; [done|..].
  - by rewrite !total_cons, IH.
  - rewrite !total_cons. lia.
  - congruence.
Qed.

Lemma omap_ext_in {A B} (f g : A → option B) (l : list A) :
  (∀ x, x ∈ l → f x = g x) → omap f l = omap g l.
Proof.
  intros Hfg. apply list_omap_ext, Forall_Forall2_diag, Forall_forall. done.
Qed.

Section Stop.
Context `{Util}.

(** What is left in a category's lookup after the stop was there before,
    and is not the stopped node. *)
Lemma stopFound_entry state act i info type act' j :
  wellFormed state → its state !! act = Some i →
  node (activities state) i = Some info →
  liveIts state type →
  byTypeIts (stopFound state act i info) type !! act' = Some j →
  byTypeIts state type !! act' = Some j ∧ j ≠ i ∧
  (ActInfo.type info = type → act' ≠ act) ∧
  node (activities (stopFound state act i info)) j = node (activities state) j.
Proof.
  intros Hwf Hi Hinfo Hlive Hj.
  assert (byTypeIts state type !! act' = Some j ∧
          (ActInfo.type info = type → act' ≠ act)) as [Hold Hne].
  { rewrite byTypeIts_stopFound in Hj. case_decide as Ht.
    - by apply lookup_delete_Some in Hj as [Hne Hj].
    - done. }
  assert (j ≠ i) as Hji.
  { intros ->.
    destruct (wf_byType _ Hwf _ _ _ Hold) as (i2 & info2 & Hi2 & Hn2 & Ht2 & Hsame).
    assert (i = i2) as <-.
    { apply Hsame, node_is_Some. by eexists. }
    assert (act' = act) as -> by (by eapply wf_inj).
    apply Hne; [|done]. congruence. }
  split_and!; try done.
  unfold stopFound. simpl. rewrite node_erase. by rewrite decide_False.
Qed.

Lemma liveIts_stopFound state act i info type :
  wellFormed state → its state !! act = Some i →
  node (activities state) i = Some info →
  liveIts state type → liveIts (stopFound state act i info) type.
Proof.
  intros Hwf Hi Hinfo Hlive act' j Hj.
  destruct (stopFound_entry _ _ _ _ _ _ _ Hwf Hi Hinfo Hlive Hj)
    as (Hold & _ & _ & Hnode).
  destruct (Hlive _ _ Hold) as [x Hx]. exists x. congruence.
Qed.

Lemma renderable_stopFound state act i info :
  wellFormed state → its state !! act = Some i →
  node (activities state) i = Some info →
  renderable state → renderable (stopFound state act i info).
Proof.
  intros Hwf Hi Hinfo Hr type Ht. apply liveIts_stopFound; try done.
  by apply Hr.
Qed.

(** The live activities of a category across the stop: the stopped one is
    gone from its own category, nothing else changes. *)
Lemma liveInfos_stopFound state act i info type :
  wellFormed state → its state !! act = Some i →
  node (activities state) i = Some info →
  liveIts state type →
  liveInfos state type ≡ₚ
    if decide (ActInfo.type info = type)
    then info :: liveInfos (stopFound state act i info) type
    else liveInfos (stopFound state act i info) type.
Proof.
  intros Hwf Hi Hinfo Hlive.
  assert (liveInfos (stopFound state act i info) type =
          omap (λ j : Z * nat, node (activities state) j.2)
               (map_to_list (byTypeIts (stopFound state act i info) type)))
    as Hsame.
  { unfold liveInfos. apply omap_ext_in. intros [act' j] Hj. simpl.
    apply elem_of_map_to_list in Hj.
    by destruct (stopFound_entry _ _ _ _ _ _ _ Hwf Hi Hinfo Hlive Hj)
      as (_ & _ & _ & Hnode). }
  rewrite Hsame, byTypeIts_stopFound. unfold liveInfos.
  case_decide as Ht; [|done].
  assert (byTypeIts state type !! act = Some i) as Hreg.
  { destruct (wf_registered _ Hwf _ _ _ Hi Hinfo) as [j Hj]. rewrite Ht in Hj.
    destruct (wf_byType _ Hwf _ _ _ Hj) as (i2 & info2 & Hi2 & _ & _ & Hsame2).
    rewrite Hj. f_equal. rewrite Hi in Hi2. injection Hi2 as <-.
    apply Hsame2, node_is_Some. by eapply Hlive. }
  rewrite <- (map_to_list_delete _ _ _ Hreg). simpl. by rewrite Hinfo.
Qed.
End Stop.

(** C4, as stated, fails. An id is used again while a node started under it
    is still in the list and in the lookup of its category: the second
    start under the id leaves that lookup as it was, so the live activity
    of the id is not among those [renderActivity] adds up. Its stop adds
    its 5 done to the baseline and erases from the lookup of the category
    the entry of the other node; with another build at [2^64 - 1] done, the
    done computed for builds goes from [2^64 - 1] to 4. Every call
    returns. *)
Lemma stopActivity_lowers_done :
  reachable 80 anyCall exReused ∧
  its exReused !! 2 = Some 2%nat ∧
  node (activities exReused) 2 = Some (ActInfo.mk "c" "" actBuilds 5 0 0 0 ∅) ∧
  byTypeIts exReused actBuilds !! 2 = Some 1%nat ∧
  metric exReused actBuilds = Ok (Metric.mk (2 ^ 64 - 1) 0 0 0) ∧
  ∃ state' out,
    stopActivity 80 exReused 2 = Ok (state', out) ∧
    metric state' actBuilds = Ok (Metric.mk 4 5 0 0) ∧
    ¬ (∀ m m', metric exReused actBuilds = Ok m →
               metric state' actBuilds = Ok m' →
               Metric.done m ≤ Metric.done m').
Proof.
  assert (metric exReused actBuilds = Ok (Metric.mk (2 ^ 64 - 1) 0 0 0)) as Hm
    by (vm_compute; reflexivity).
  split_and!; [|vm_compute; reflexivity..|exact Hm|].
  - eapply (reachable_run 80 anyCall
      [Start 2 actUnknown "a"; Start 2 actBuilds "b"; Stop 2;
       Start 2 actBuilds "c"; Start 3 actBuilds "d";
       Progress 3 (2 ^ 64 - 1) 0 0 0; Progress 2 5 0 0 0] initState exReused).
    + apply reachable_init.
    + vm_compute. tauto.
    + vm_compute. reflexivity.
  - do 2 eexists. split; [vm_compute; reflexivity|].
    match goal with
    | |- ?P ∧ _ => assert P as Hm' by (vm_compute; reflexivity)
    end.
    split; [exact Hm'|]. intros Hle.
    specialize (Hle _ _ Hm Hm'). vm_compute in Hle. apply Hle. reflexivity.
Qed.

(** C4, amended: in a state the callbacks reach with activities started
    under fresh ids, stopping a live activity adds its [done] and [failed] to the
    baseline of its category, takes each of its declared expectations off
    the aggregate of the category it was declared for, and removes the
    activity from the list and both lookups; the [done] and [failed] that
    [renderActivity] computes for a category are then what they were just
    before the stop, so not less. *)
Theorem stopActivity_folds `{Util} (width : Z) (state : State)
    (act : ActivityId) (i : nat) (info : ActInfo.t) :
  reachable width freshStart state →
  its state !! act = Some i →
  node (activities state) i = Some info →
  let state' := stopFound state act i info in
  let type := ActInfo.type info in
  (∃ line, stopActivity width state act = Ok (state', [line])) ∧
  ActivitiesByType.done (activitiesByType state' !!! type) =
    wrap64 (ActivitiesByType.done (activitiesByType state !!! type)
            + ActInfo.done info) ∧
  ActivitiesByType.failed (activitiesByType state' !!! type) =
    wrap64 (ActivitiesByType.failed (activitiesByType state !!! type)
            + ActInfo.failed info) ∧
  (∀ type',
     ActivitiesByType.expected (activitiesByType state' !!! type') =
       match ActInfo.expectedByType info !! type' with
       | Some v =>
           wrap64 (ActivitiesByType.expected (activitiesByType state !!! type')
                   - v)
       | None => ActivitiesByType.expected (activitiesByType state !!! type')
       end) ∧
  its state' !! act = None ∧
  node (activities state') i = None ∧
  byTypeIts state' type !! act = None ∧
  (∀ type' m,
     metric state type' = Ok m →
     ∃ m', metric state' type' = Ok m' ∧
           Metric.done m' = Metric.done m ∧
           Metric.failed m' = Metric.failed m ∧
           Metric.done m ≤ Metric.done m' ∧
           Metric.failed m ≤ Metric.failed m').
Proof.
  intros Hreach Hi Hinfo state' type. subst state' type.
  pose proof (reachable_wellFormed _ _ Hreach) as Hwf.
  pose proof (reachable_renderable _ _ _ Hreach) as Hr.
  pose proof (wellFormed_stopFound _ _ _ _ Hwf Hi Hinfo) as Hwf'.
  split_and!.
  - unfold stopActivity, stopState, deref. rewrite Hi, Hinfo. simpl.
    destruct (redraw_defined width (stopFound state act i info))
      as (line & _ & Hline).
    { by apply renderable_stopFound. }
    by exists line.
  - destruct (baseline_stopFound state act i info (ActInfo.type info))
      as (-> & _ & _).
    by rewrite decide_True.
  - destruct (baseline_stopFound state act i info (ActInfo.type info))
      as (_ & -> & _).
    by rewrite decide_True.
  - intros type'.
    by destruct (baseline_stopFound state act i info type') as (_ & _ & ->).
  - apply lookup_delete_eq.
  - unfold stopFound. simpl. rewrite node_erase. by rewrite decide_True.
  - rewrite byTypeIts_stopFound, decide_True by done.
    apply lookup_delete_eq.
  - intros type' m Hm.
    pose proof (metric_Ok_liveIts _ _ _ Hm) as Hlive.
    pose proof (liveIts_stopFound _ _ _ _ _ Hwf Hi Hinfo Hlive) as Hlive'.
    destruct (wf_range _ Hwf type') as [Hd Hf].
    destruct (wf_range _ Hwf' type') as [Hd' Hf'].
    rewrite (metric_closed _ _ Hlive Hd Hf) in Hm. injection Hm as <-.
    rewrite (metric_closed _ _ Hlive' Hd' Hf').
    eexists. split; [reflexivity|]. cbn [Metric.done Metric.failed].
    pose proof (liveInfos_stopFound _ _ _ _ _ Hwf Hi Hinfo Hlive) as Hperm.
    destruct (baseline_stopFound state act i info type') as (Hbd & Hbf & _).
    rewrite Hbd, Hbf.
    rewrite (total_Permutation ActInfo.done _ _ Hperm).
    rewrite (total_Permutation ActInfo.failed _ _ Hperm).
    assert (∀ b x S, wrap64 (wrap64 (b + x) + S) = wrap64 (b + (x + S)))
      as Hfold.
    { intros b x S. rewrite wrap64_add_l. f_equal. lia. }
    case_decide; rewrite ?total_cons, ?Hfold; split_and!; try done; lia.
Qed.

Lemma stopActivity_folds_witness :
  ∃ line,
    stopActivity 80 exBuilding 1 =
      Ok (stopFound exBuilding 1 0
            (ActInfo.mk "building foo" "" actBuilds 1 3 0 0 ∅), [line]) ∧
    metric exBuilding actBuilds = Ok (Metric.mk 1 3 0 0) ∧
    ∃ m', metric (stopFound exBuilding 1 0
                    (ActInfo.mk "building foo" "" actBuilds 1 3 0 0 ∅))
                 actBuilds = Ok m' ∧
          Metric.done m' = 1.
Proof.
  destruct (stopActivity_folds 80 exBuilding 1 0%nat
              (ActInfo.mk "building foo" "" actBuilds 1 3 0 0 ∅))
    as ([line Hline] & _ & _ & _ & _ & _ & _ & Hmetric).
  - eapply (reachable_run 80 freshStart
      [Start 1 actBuilds "building foo"; Progress 1 1 3 0 0] initState).
    + apply reachable_init.
    + vm_compute. tauto.
    + vm_compute. reflexivity.
  - vm_compute. reflexivity.
  - vm_compute. reflexivity.
  - exists line. split; [exact Hline|].
    assert (metric exBuilding actBuilds = Ok (Metric.mk 1 3 0 0)) as Hm
      by (vm_compute; reflexivity).
    split; [exact Hm|].
    destruct (Hmetric actBuilds _ Hm) as (m' & Hm' & Hd & _).
    exists m'. split; [exact Hm' | exact Hd].
Defined.

(** ** The scenarios of the specification, run *)

Example scenario_one_of_three_built :
  getStatus exBuilding = Ok (ANSI_GREEN +:+ "1" +:+ ANSI_NORMAL +:+ "/3 built").
Proof. vm_compute. reflexivity. Qed.

Example scenario_declared_expectation :
  metric
    (stateAfter [Start 0 actUnknown "plan"; SetExpected 0 actDownload 10;
                 Start 1 actDownload "a"; Start 2 actDownload "b";
                 Start 3 actDownload "c"; Progress 1 0 1 0 0;
                 Progress 2 0 1 0 0; Progress 3 0 2 0 0])
    actDownload = Ok (Metric.mk 0 10 0 0) ∧
  metric
    (stateAfter [Start 0 actUnknown "plan"; SetExpected 0 actDownload 10;
                 Start 1 actDownload "a"; Start 2 actDownload "b";
                 Start 3 actDownload "c"; Progress 1 0 1 0 0;
                 Progress 2 0 1 0 0; Progress 3 0 10 0 0])
    actDownload = Ok (Metric.mk 0 12 0 0).
Proof. split; vm_compute; reflexivity. Qed.

Example scenario_build_log_line :
  result 80 (stateAfter [Start 7 actUnknown "building foo"]) 7 resBuildLogLine
         [tString "  "] =
    Ok (stateAfter [Start 7 actUnknown "building foo"], []) ∧
  update 80 exLogged = Ok (CR +:+ "building foo: compiling x.c" +:+ ESC +:+ "[K").
Proof. split; vm_compute; reflexivity. Qed.

Example scenario_destroy_silent :
  destroy initState = Ok [CR +:+ ESC +:+ "[K"] ∧
  destroy exBuilt =
    Ok [CR +:+ ESC +:+ "[K";
        "[" +:+ ANSI_GREEN +:+ "1" +:+ ANSI_NORMAL +:+ " built]"
          +:+ String "010"%char EmptyString].
Proof. split; vm_compute; reflexivity. Qed.

(** * Further properties of the callbacks *)

(** ** Which calls fail, and how *)

Lemma getI_AssertFail fields :
  getI fields 0 = AssertFail ↔ ∀ n, fields !! 0%nat ≠ Some (tInt n).
Proof.
  unfold getI. destruct (fields !! 0%nat) as [[s|i]|]; split; try done.
  - intros Hn. by destruct (Hn i).
Qed.

Lemma getS_AssertFail fields :
  getS fields 0 = AssertFail ↔ ∀ s, fields !! 0%nat ≠ Some (tString s).
Proof.
  unfold getS. destruct (fields !! 0%nat) as [[s|i]|]; split; try done.
  - intros Hn. by destruct (Hn s).
Qed.

Lemma bind_AssertFail {A B} (f : A → outcome B) (m : outcome A) :
  m ≫= f = AssertFail ↔ m = AssertFail ∨ ∃ a, m = Ok a ∧ f a = AssertFail.
Proof.
  destruct m as [a| |]; simpl; split; try done.
  - intros Hf. right. by exists a.
  - by intros [Hm|(a' & [= <-] & Hf)].
  - by left.
  - by intros [Hm|(a' & Hm & _)].
Qed.

Lemma deref_not_AssertFail l i : deref l i ≠ AssertFail.
Proof. unfold deref. by destruct (node l i). Qed.

(** X1: a call fails an assertion exactly in the cases of [assertFails];
    [startActivity] and [stopActivity] never do. *)
Theorem step_AssertFail_iff `{Util} (width : Z) (c : call) (state : State) :
  step width c state = AssertFail ↔ assertFails c state.
Proof.
  destruct c as [act type s|act|act d e r f|act type e|act type fields]; simpl.
  - split; [|done]. intros Hs. by apply redraw_not_AssertFail in Hs.
  - split; [|done]. unfold stopActivity, stopState.
    intros [Hs|(st & _ & Hr)]%bind_AssertFail.
    + destruct (its state !! act); [|done].
      apply bind_AssertFail in Hs as [Hd|(a & _ & Ha)]; [|done].
      by apply deref_not_AssertFail in Hd.
    + by apply redraw_not_AssertFail in Hr.
  - unfold progress, progressState. destruct (its state !! act) as [i|].
    + split; [|done]. intros [Hs|(st & _ & Hr)]%bind_AssertFail.
      * apply bind_AssertFail in Hs as [Hd|(a & _ & Ha)]; [|done].
        by apply deref_not_AssertFail in Hd.
      * by apply redraw_not_AssertFail in Hr.
    + done.
  - unfold setExpected, setExpectedState. destruct (its state !! act) as [i|].
    + split; [|done]. intros [Hs|(st & _ & Hr)]%bind_AssertFail.
      * apply bind_AssertFail in Hs as [Hd|(a & _ & Ha)]; [|done].
        by apply deref_not_AssertFail in Hd.
      * by apply redraw_not_AssertFail in Hr.
    + done.
  - unfold result. destruct type.
    + rewrite bind_AssertFail, getI_AssertFail. split; [|by left].
      intros [Hg|(n & _ & Hr)]; [done|]. by apply redraw_not_AssertFail in Hr.
    + rewrite bind_AssertFail, getS_AssertFail. split.
      * intros [Hg|(s & Hs & Hr)]; [by left|]. right. exists s.
        unfold getS in Hs. destruct (fields !! 0%nat) as [[s'|i']|]; try done.
        injection Hs as ->. split; [done|].
        destruct (trim s) eqn:Ht; [done|]. split; [done|]. simpl in Hr.
        apply bind_AssertFail in Hr as [Hm|(st & _ & Hr)].
        -- unfold moveToTail in Hm. destruct (its state !! act); [|done].
           apply bind_AssertFail in Hm as [Hd|(a' & _ & Ha)]; [|done].
           by apply deref_not_AssertFail in Hd.
        -- by apply redraw_not_AssertFail in Hr.
      * intros [Hg|(s & Hs & Ht & Hact)]; [by left|]. right. exists s.
        unfold getS. rewrite Hs. split; [done|].
        destruct (trim s); [done|]. simpl. unfold moveToTail. by rewrite Hact.
    + split; [|done]. intros Hr. by apply redraw_not_AssertFail in Hr.
    + split; [|done]. intros Hr. by apply redraw_not_AssertFail in Hr.
    + done.
Qed.

Section Safety.
Context `{Util}.

Lemma result_logline_fields width state act fields s :
  fields !! 0%nat = Some (tString s) →
  result width state act resBuildLogLine fields =
  result width state act resBuildLogLine [tString s].
Proof. intros Hs. unfold result, getS. by rewrite Hs. Qed.

Lemma redraw_same_handles width state state' :
  handles state' = handles state →
  (∀ type, byTypeIts state' type = byTypeIts state type) →
  renderable state → ∃ line, redraw width state' = Ok (state', [line]).
Proof.
  intros Hh Hby Hr.
  destruct (redraw_defined width state') as (line & _ & Hline).
  { by apply (renderable_same_handles state). }
  by exists line.
Qed.

(** In a state reached under fresh ids every call returns or fails an
    assertion, but for the build log line of [dereferencesDangling]. *)
Lemma step_returns_or_fails width c state :
  wellFormed state → renderable state →
  ¬ dereferencesDangling c state →
  (∃ r, step width c state = Ok r) ∨ step width c state = AssertFail.
Proof.
  intros Hwf Hr Hsafe.
  assert (∀ act i, its state !! act = Some i →
            ∃ info, node (activities state) i = Some info) as Hnode.
  { intros act i Hi. apply node_is_Some. by eapply wf_its. }
  destruct c as [act type s|act|act d e r f|act type e|act type fields]; simpl.
  - left. unfold startActivity.
    destruct (redraw_defined width (startState state act type s))
      as (line & _ & ->); [by apply renderable_start|]. by eexists.
  - left. unfold stopActivity, stopState.
    destruct (its state !! act) as [i|] eqn:Hi.
    + destruct (Hnode _ _ Hi) as [info Hinfo]. unfold deref. rewrite Hinfo. simpl.
      destruct (redraw_defined width (stopFound state act i info))
        as (line & _ & ->); [by apply renderable_stopFound|]. by eexists.
    + simpl. destruct (redraw_defined width state) as (line & _ & ->); [done|].
      by eexists.
  - unfold progress. destruct (progressState state act d e r f)
      as [st| |] eqn:Hp; simpl.
    + left. destruct (redraw_defined width st) as (line & _ & ->).
      { by eapply renderable_progressState. }
      by eexists.
    + by right.
    + unfold progressState in Hp. destruct (its state !! act) as [i|] eqn:Hi;
        [|done].
      destruct (Hnode _ _ Hi) as [info Hinfo]. unfold deref in Hp.
      by rewrite Hinfo in Hp.
  - unfold setExpected. destruct (setExpectedState state act type e)
      as [st| |] eqn:Hp; simpl.
    + left. destruct (redraw_defined width st) as (line & _ & ->).
      { by eapply renderable_setExpectedState. }
      by eexists.
    + by right.
    + unfold setExpectedState in Hp.
      destruct (its state !! act) as [i|] eqn:Hi; [|done].
      destruct (Hnode _ _ Hi) as [info Hinfo]. unfold deref in Hp.
      by rewrite Hinfo in Hp.
  - destruct type.
    + unfold result, getI. destruct (fields !! 0%nat) as [[s|n]|];
        [by right| |by right].
      left. simpl.
      match goal with |- ∃ r, redraw _ ?st = _ =>
        destruct (redraw_same_handles width state st) as [line ->] end;
        [done..|by eexists].
    + destruct (fields !! 0%nat) as [[s|n]|] eqn:Hf.
      * rewrite (result_logline_fields _ _ _ _ _ Hf).
        destruct (decide (trim s = "")) as [Ht|Ht].
        { left. rewrite (result_logline_blank _ _ _ _ Ht). by eexists. }
        unfold result, getS. simpl.
        assert (negb (empty (trim s)) = true) as ->.
        { destruct (trim s); [done | reflexivity]. }
        destruct (its state !! act) as [i|] eqn:Hi.
        -- destruct (Hnode _ _ Hi) as [info Hinfo].
           unfold moveToTail, deref. rewrite Hi, Hinfo. simpl. left.
           match goal with |- ∃ r, redraw _ ?st = _ =>
             destruct (redraw_defined width st) as (line & _ & ->) end;
             [|by eexists].
           intros type Ht'. apply liveIts_handles. intros act' j Hj.
           change (j ∈ (erase (activities state) i
                          ++ [(nextNode state, ActInfo.set_s2 info (trim s))]).*1).
           rewrite fmap_app, handles_erase, elem_of_app, list_elem_of_filter.
           left. change (byTypeIts state type !! act' = Some j) in Hj.
           assert (j ∈ handles state) as Hin
             by (by eapply liveIts_handles, Hj; apply Hr).
           split; [|exact Hin]. intros ->.
           destruct (wf_byType _ Hwf _ _ _ Hj)
             as (i2 & info2 & Hi2 & Hn2 & Ht2 & Hsame).
           assert (i = i2) as <- by (by apply Hsame).
           apply Hsafe. simpl. exists s, i, info. split_and!; try done.
           congruence.
        -- right. unfold moveToTail. by rewrite Hi.
      * right. unfold result, getS. by rewrite Hf.
      * right. unfold result, getS. by rewrite Hf.
    + left. unfold result.
      match goal with |- ∃ r, redraw _ ?st = _ =>
        destruct (redraw_same_handles width state st) as [line ->] end;
        [done..|by eexists].
    + left. unfold result.
      match goal with |- ∃ r, redraw _ ?st = _ =>
        destruct (redraw_same_handles width state st) as [line ->] end;
        [done..|by eexists].
    + left. by eexists.
Qed.
End Safety.

Lemma dereferencesDangling_dec `{Util} (c : call) (state : State) :
  dereferencesDangling c state ∨ ¬ dereferencesDangling c state.
Proof.
  destruct c as [| | | |act type fields]; simpl; try (right; tauto).
  destruct type; try (right; tauto).
  destruct (fields !! 0%nat) as [[s|n]|] eqn:Hf.
  - destruct (decide (trim s = "")) as [Ht|Ht].
    { right. intros (s' & i & info & Hs & Ht' & _). by simplify_eq. }
    destruct (its state !! act) as [i|] eqn:Hi.
    + destruct (node (activities state) i) as [info|] eqn:Hinfo.
      * destruct (decide (ActInfo.type info ∈ rendered)) as [Hin|Hin].
        -- left. by exists s, i, info.
        -- right. intros (s' & i' & info' & Hs & _ & Hi' & Hinfo' & Hin').
           by simplify_eq.
      * right. intros (s' & i' & info' & Hs & _ & Hi' & Hinfo' & _).
        by simplify_eq.
    + right. by intros (s' & i' & info' & _ & _ & Hi' & _).
  - right. by intros (s' & i' & info' & Hs & _).
  - right. by intros (s' & i' & info' & Hs & _).
Qed.

(** X2: in a state the callbacks reach with activities started under fresh
    ids, a call goes through a dangling iterator exactly when it is a build
    log line that is not blank for a live activity of a category the status
    renders; every other call returns or fails an assertion. *)
Theorem step_Undefined_iff `{Util} (width : Z) (c : call) (state : State) :
  reachable width freshStart state →
  step width c state = Undefined ↔ dereferencesDangling c state.
Proof.
  intros Hreach.
  pose proof (reachable_wellFormed _ _ Hreach) as Hwf.
  pose proof (reachable_renderable _ _ _ Hreach) as Hr.
  split.
  - intros Hu.
    destruct (dereferencesDangling_dec c state) as [Hd|Hd]; [done|].
    destruct (step_returns_or_fails width c state Hwf Hr Hd) as [[r Hs]|Hs];
      congruence.
  - destruct c as [| | | |act [] fields]; simpl; try done.
    intros (s & i & info & Hf & Ht & Hi & Hinfo & Htype).
    change (result width state act resBuildLogLine fields = Undefined).
    rewrite (result_logline_fields _ _ _ _ _ Hf).
    by eapply result_logline_rendered.
Qed.

Lemma step_Undefined_iff_witness :
  step 80 (Result 1 resBuildLogLine [tString "compiling x.c"]) exBuilding
    = Undefined ∧
  ∃ r, step 80 (Result 7 resBuildLogLine [tString "again"]) exLogged = Ok r.
Proof.
  split.
  - apply (step_Undefined_iff 80 _ exBuilding).
    + eapply (reachable_run 80 freshStart
        [Start 1 actBuilds "building foo"; Progress 1 1 3 0 0] initState).
      * apply reachable_init.
      * vm_compute. tauto.
      * vm_compute. reflexivity.
    + simpl. exists "compiling x.c", 0%nat,
        (ActInfo.mk "building foo" "" actBuilds 1 3 0 0 ∅).
      split_and!; try (vm_compute; reflexivity).
      * vm_compute. discriminate.
      * unfold rendered. simpl. set_solver.
  - eexists. vm_compute. reflexivity.
Defined.

(** ** Declared expectations add up *)

Lemma wrap64_sub_l (x y : Z) : wrap64 (wrap64 x - y) = wrap64 (x - y).
Proof. unfold wrap64. by rewrite Zminus_mod_idemp_l. Qed.

Lemma total_app f l1 l2 : total f (l1 ++ l2) = total f l1 + total f l2.
Proof.
  induction l1 as [|a l1 IH]; [done|].
  rewrite <- app_comm_cons, !total_cons, IH. lia.
Qed.

Lemma erase_notin l i : i ∉ l.*1 → erase l i = l.
Proof.
  unfold erase. induction l as [|[h a] l IH]; [done|].
  rewrite fmap_cons, not_elem_of_cons. simpl. intros [Hne Hin].
  rewrite filter_cons_True by (simpl; congruence). by rewrite IH.
Qed.

Lemma assign_notin l i a : i ∉ l.*1 → assign l i a = l.
Proof.
  induction l as [|[h b] l IH]; [done|].
  rewrite fmap_cons, not_elem_of_cons, assign_cons. simpl. intros [Hne Hin].
  rewrite decide_False by congruence. by rewrite IH.
Qed.

Lemma total_erase f l i info :
  NoDup l.*1 → node l i = Some info →
  total f (erase l i).*2 = total f l.*2 - f info.
Proof.
  induction l as [|[h a] l IH]; [done|].
  rewrite !fmap_cons, NoDup_cons, total_cons. cbn [node fst snd].
  intros [Hh Hnd].
  destruct (decide (h = i)) as [->|Hne].
  - intros [= <-]. unfold erase. rewrite filter_cons_False by (simpl; tauto).
    fold (erase l i). rewrite erase_notin by done. lia.
  - intros Hn. unfold erase. rewrite filter_cons_True by done.
    fold (erase l i). rewrite fmap_cons, total_cons. cbn [snd].
    rewrite IH by done. lia.
Qed.

Lemma total_assign f l i info a :
  NoDup l.*1 → node l i = Some info →
  total f (assign l i a).*2 = total f l.*2 - f info + f a.
Proof.
  induction l as [|[h b] l IH]; [done|].
  rewrite !fmap_cons, NoDup_cons, assign_cons, total_cons. cbn [node fst snd].
  intros [Hh Hnd].
  destruct (decide (h = i)) as [->|Hne].
  - intros [= <-]. rewrite assign_notin by done.
    rewrite ?fmap_cons, ?total_cons. cbn [snd]. lia.
  - intros Hn. rewrite ?fmap_cons, ?total_cons. cbn [snd].
    rewrite IH by done. lia.
Qed.

Section Declared.
Context `{Util}.

Lemma step_handlesFresh width c state state' out :
  handlesFresh state → step width c state = Ok (state', out) →
  handlesFresh state'.
Proof.
  intros [Hnd Hb].
  assert (nextNode state ∉ handles state) as Hnew.
  { intros Hin%Hb. lia. }
  assert (∀ i info,
    handlesFresh
      (set_activities state
         (erase (activities state) i ++ [(nextNode state, info)])
         (S (nextNode state)))) as Hmove.
  { intros i info. split; unfold handles; simpl;
      rewrite fmap_app, handles_erase;
      change ([(nextNode state, info)].*1) with [nextNode state].
    - apply NoDup_app. split; [by apply NoDup_filter|].
      split; [|apply NoDup_singleton].
      intros j [_ Hj]%list_elem_of_filter ->%list_elem_of_singleton. done.
    - intros j. rewrite elem_of_app, list_elem_of_filter, list_elem_of_singleton.
      intros [[_ Hj%Hb]| ->]; lia. }
  destruct c as [act type s|act|act d e r f|act type e|act type fields]; simpl.
  - intros (-> & _)%redraw_Ok. split.
    + rewrite handles_start. apply NoDup_app. split; [done|].
      split; [|apply NoDup_singleton].
      intros j Hj ->%list_elem_of_singleton. done.
    + intros j. rewrite handles_start, elem_of_app, list_elem_of_singleton.
      unfold startState. simpl. intros [Hj%Hb| ->]; lia.
  - unfold stopActivity. intros (st1 & Hstop & (-> & _)%redraw_Ok)%bind_Ok.
    unfold stopState in Hstop. destruct (its state !! act) as [i|].
    + apply bind_Ok in Hstop as (info & _ & [= <-]). split.
      * rewrite handles_stopFound. by apply NoDup_filter.
      * intros j. rewrite handles_stopFound, list_elem_of_filter.
        intros [_ Hj]. by apply Hb.
    + by injection Hstop as <-.
  - unfold progress. intros (st1 & Hp & (-> & _)%redraw_Ok)%bind_Ok.
    unfold progressState in Hp. destruct (its state !! act) as [i|]; [|done].
    apply bind_Ok in Hp as (info & _ & [= <-]).
    unfold handlesFresh, handles. simpl. by rewrite handles_assign.
  - unfold setExpected. intros (st1 & Hp & (-> & _)%redraw_Ok)%bind_Ok.
    unfold setExpectedState in Hp. destruct (its state !! act) as [i|]; [|done].
    apply bind_Ok in Hp as (info & _ & [= <-]).
    unfold handlesFresh, handles. simpl. by rewrite handles_assign.
  - unfold result. destruct type.
    + by intros (n & _ & (-> & _)%redraw_Ok)%bind_Ok.
    + intros (s & _ & Hr)%bind_Ok. destruct (negb (empty (trim s))).
      * apply bind_Ok in Hr as (st1 & Hm & (-> & _)%redraw_Ok).
        unfold moveToTail in Hm. destruct (its state !! act) as [i|]; [|done].
        apply bind_Ok in Hm as (info & _ & [= <-]). apply Hmove.
      * by injection Hr as <- <-.
    + by intros (-> & _)%redraw_Ok.
    + by intros (-> & _)%redraw_Ok.
    + by intros [= <- <-].
Qed.

Lemma reachable_handlesFresh width ok state :
  reachable width ok state → handlesFresh state.
Proof.
  induction 1 as [|state c state' out _ IH Hok Hstep].
  - split; [constructor|]. intros i Hi. by apply elem_of_nil in Hi.
  - by eapply step_handlesFresh.
Qed.

Lemma step_declared width c state state' out :
  handlesFresh state →
  (∀ type, ActivitiesByType.expected (activitiesByType state !!! type) =
           wrap64 (declared state type)) →
  step width c state = Ok (state', out) →
  ∀ type, ActivitiesByType.expected (activitiesByType state' !!! type) =
          wrap64 (declared state' type).
Proof.
  intros [Hnd _] Hsum.
  destruct c as [act type s|act|act d e r f|act type e|act type fields]; simpl.
  - intros (-> & _)%redraw_Ok type'. unfold declared, startState. simpl.
    rewrite fmap_app, total_app. simpl. unfold at0 at 2.
    rewrite lookup_empty. simpl. rewrite !Z.add_0_r.
    destruct (decide (type = type')) as [<-|Hne].
    + rewrite lookup_total_insert_eq. simpl. apply Hsum.
    + rewrite lookup_total_insert_ne by done. apply Hsum.
  - unfold stopActivity. intros (st1 & Hstop & (-> & _)%redraw_Ok)%bind_Ok.
    unfold stopState in Hstop. destruct (its state !! act) as [i|].
    + apply bind_Ok in Hstop as (info & Hinfo%deref_Ok & [= <-]). intros type'.
      destruct (baseline_stopFound state act i info type') as (_ & _ & ->).
      unfold declared at 1. unfold stopFound. simpl.
      rewrite (total_erase _ _ _ info) by done. fold (declared state type').
      rewrite Hsum. unfold at0.
      destruct (ActInfo.expectedByType info !! type'); simpl.
      * apply wrap64_sub_l.
      * by rewrite Z.sub_0_r.
    + by injection Hstop as <-.
  - unfold progress. intros (st1 & Hp & (-> & _)%redraw_Ok)%bind_Ok.
    unfold progressState in Hp. destruct (its state !! act) as [i|]; [|done].
    apply bind_Ok in Hp as (info & Hinfo%deref_Ok & [= <-]). intros type'.
    unfold declared at 1. simpl.
    rewrite (total_assign _ _ _ info) by done. fold (declared state type').
    simpl. rewrite Hsum. f_equal. lia.
  - unfold setExpected. intros (st1 & Hp & (-> & _)%redraw_Ok)%bind_Ok.
    destruct (its state !! act) as [i|] eqn:Hi;
      [|unfold setExpectedState in Hp; by rewrite Hi in Hp].
    destruct (node (activities state) i) as [info|] eqn:Hinfo;
      [|unfold setExpectedState, deref in Hp; by rewrite Hi, Hinfo in Hp].
    rewrite (setExpectedState_eq _ _ _ _ _ _ Hi Hinfo) in Hp.
    injection Hp as <-. intros type'. unfold declared at 1. simpl.
    rewrite (total_assign _ _ _ info) by done. fold (declared state type').
    simpl. destruct (decide (type = type')) as [<-|Hne].
    + rewrite lookup_total_insert_eq. simpl. rewrite Hsum.
      unfold at0 at 3. rewrite lookup_insert_eq. simpl.
      rewrite wrap64_sub_l, wrap64_add_l. done.
    + rewrite lookup_total_insert_ne by done. rewrite Hsum.
      unfold at0 at 2. rewrite lookup_insert_ne by done.
      fold (at0 (ActInfo.expectedByType info) type'). f_equal. lia.
  - unfold result. destruct type.
    + by intros (n & _ & (-> & _)%redraw_Ok)%bind_Ok.
    + intros (s & _ & Hr)%bind_Ok. destruct (negb (empty (trim s))).
      * apply bind_Ok in Hr as (st1 & Hm & (-> & _)%redraw_Ok).
        unfold moveToTail in Hm. destruct (its state !! act) as [i|]; [|done].
        apply bind_Ok in Hm as (info & Hinfo%deref_Ok & [= <-]). intros type'.
        unfold declared at 1. simpl.
        rewrite fmap_app, total_app, (total_erase _ _ _ info) by done.
        fold (declared state type'). simpl. rewrite Hsum. f_equal. lia.
      * by injection Hr as <- <-.
    + by intros (-> & _)%redraw_Ok.
    + by intros (-> & _)%redraw_Ok.
    + by intros [= <- <-].
Qed.
End Declared.

(** X3: in every state the callbacks reach, the expectation aggregated for a
    category is the sum, modulo [2^64], of what the activities of the list
    have declared for it; with no activity left it is 0. *)
Theorem reachable_declared `{Util} (width : Z) (ok : call → State → Prop)
    (state : State) (type : ActivityType) :
  reachable width ok state →
  ActivitiesByType.expected (activitiesByType state !!! type) =
    wrap64 (declared state type) ∧
  (activities state = [] →
   ActivitiesByType.expected (activitiesByType state !!! type) = 0).
Proof.
  intros Hreach.
  assert (∀ type', ActivitiesByType.expected (activitiesByType state !!! type')
                   = wrap64 (declared state type')) as Hsum.
  { induction Hreach as [|state c state' out Hreach IH Hok Hstep].
    - intros type'. unfold initState. cbn [activitiesByType].
      by rewrite lookup_total_empty.
    - eapply step_declared; [|exact IH|exact Hstep].
      by eapply reachable_handlesFresh. }
  split; [apply Hsum|]. intros Hnil. rewrite Hsum. unfold declared.
  by rewrite Hnil.
Qed.

Lemma reachable_declared_witness :
  ActivitiesByType.expected
    (activitiesByType
       (stateAfter [Start 0 actUnknown "plan"; SetExpected 0 actDownload 10;
                    Start 1 actBuilds "b"; SetExpected 1 actDownload 5;
                    Stop 0]) !!! actDownload) = 5.
Proof.
  destruct (reachable_declared 80 anyCall
    (stateAfter [Start 0 actUnknown "plan"; SetExpected 0 actDownload 10;
                 Start 1 actBuilds "b"; SetExpected 1 actDownload 5; Stop 0])
    actDownload) as [Hsum _].
  - eapply (reachable_run 80 anyCall
      [Start 0 actUnknown "plan"; SetExpected 0 actDownload 10;
       Start 1 actBuilds "b"; SetExpected 1 actDownload 5; Stop 0] initState).
    + apply reachable_init.
    + vm_compute. tauto.
    + vm_compute. reflexivity.
  - rewrite Hsum. vm_compute. reflexivity.
Defined.

(** ** The ids of the registry *)

(** X4: a call that returns changes the ids of the global lookup as its kind
    says: a start adds its id, a stop removes it, every other call leaves
    them as they are. *)
Theorem step_ids `{Util} (width : Z) (c : call) (state state' : State)
    (out : list string) :
  step width c state = Ok (state', out) →
  dom (its state') = idsAfter c (dom (its state)).
Proof.
  destruct c as [act type s|act|act d e r f|act type e|act type fields]; simpl.
  - intros (-> & _)%redraw_Ok. unfold startState, emplace. simpl.
    destruct (its state !! act) as [i|] eqn:Hi.
    + apply (elem_of_dom_2 (D := gset Z)) in Hi. symmetry.
      by apply subseteq_union_1_L, singleton_subseteq_l.
    + apply dom_insert_L.
  - unfold stopActivity. intros (st1 & Hstop & (-> & _)%redraw_Ok)%bind_Ok.
    unfold stopState in Hstop. destruct (its state !! act) as [i|] eqn:Hi.
    + apply bind_Ok in Hstop as (info & _ & [= <-]). apply dom_delete_L.
    + injection Hstop as <-. apply (not_elem_of_dom (D := gset Z)) in Hi.
      symmetry. by apply difference_disjoint_L, disjoint_singleton_r.
  - unfold progress. intros (st1 & Hp & (-> & _)%redraw_Ok)%bind_Ok.
    unfold progressState in Hp. destruct (its state !! act) as [i|]; [|done].
    by apply bind_Ok in Hp as (info & _ & [= <-]).
  - unfold setExpected. intros (st1 & Hp & (-> & _)%redraw_Ok)%bind_Ok.
    unfold setExpectedState in Hp. destruct (its state !! act) as [i|]; [|done].
    by apply bind_Ok in Hp as (info & _ & [= <-]).
  - unfold result. destruct type.
    + by intros (n & _ & (-> & _)%redraw_Ok)%bind_Ok.
    + intros (s & _ & Hr)%bind_Ok. destruct (negb (empty (trim s))).
      * apply bind_Ok in Hr as (st1 & Hm & (-> & _)%redraw_Ok).
        unfold moveToTail in Hm.
        destruct (its state !! act) as [i|] eqn:Hi; [|done].
        apply bind_Ok in Hm as (info & _ & [= <-]). simpl.
        rewrite dom_insert_L. apply (elem_of_dom_2 (D := gset Z)) in Hi.
        by apply subseteq_union_1_L, singleton_subseteq_l.
      * by injection Hr as <- <-.
    + by intros (-> & _)%redraw_Ok.
    + by intros (-> & _)%redraw_Ok.
    + by intros [= <- <-].
Qed.

Lemma step_ids_witness :
  dom (its (stateAfter [Start 1 actBuilds "a"; Start 2 actDownload "b";
                        Stop 1])) = {[2]}.
Proof.
  assert (∃ out,
    step 80 (Stop 1) (stateAfter [Start 1 actBuilds "a"; Start 2 actDownload "b"])
    = Ok (stateAfter [Start 1 actBuilds "a"; Start 2 actDownload "b"; Stop 1],
          out)) as [out Hstep].
  { eexists. vm_compute. reflexivity. }
  rewrite (step_ids 80 _ _ _ _ Hstep). vm_compute. reflexivity.
Defined.

(** X5: in a state reached with activities started under fresh ids, the
    list holds exactly one node for each id of the global lookup: no node
    is listed twice, the nodes of the list are, up to order, the iterators
    the lookup holds, each held once, and so the list is as long as the
    lookup has ids. *)
Theorem reachable_one_node_per_id `{Util} (width : Z) (state : State) :
  reachable width freshStart state →
  NoDup (handles state) ∧
  handles state ≡ₚ (map_to_list (its state)).*2 ∧
  length (activities state) = size (its state).
Proof.
  intros Hwf%reachable_wellFormed.
  assert (handles state ≡ₚ (map_to_list (its state)).*2) as Hperm.
  { apply NoDup_Permutation.
    - apply Hwf.
    - apply NoDup_fmap_2_strong; [|apply NoDup_map_to_list].
      intros [a1 i1] [a2 i2] H1%elem_of_map_to_list H2%elem_of_map_to_list.
      simpl. intros <-. f_equal. by eapply wf_inj.
    - intros i. split.
      + intros [act Hact]%(wf_onto _ Hwf). apply list_elem_of_fmap.
        exists (act, i). split; [done|]. by apply elem_of_map_to_list.
      + intros ([act j] & -> & Hj%elem_of_map_to_list)%list_elem_of_fmap.
        by eapply wf_its. }
  split_and!; [apply Hwf | exact Hperm |].
  rewrite <- length_map_to_list, <- (length_fmap snd (map_to_list _)).
  rewrite <- (length_fmap fst (activities state)).
  by apply Permutation_length.
Qed.

Lemma reachable_one_node_per_id_witness :
  NoDup (handles exLogged) ∧
  handles exLogged ≡ₚ (map_to_list (its exLogged)).*2 ∧
  length (activities exLogged) = size (its exLogged).
Proof.
  apply (reachable_one_node_per_id 80). apply reachable_exLogged.
Defined.

(** ** How the callbacks compose *)

Lemma ActivitiesByType_eq (a b : ActivitiesByType.t) :
  ActivitiesByType.its a = ActivitiesByType.its b →
  ActivitiesByType.done a = ActivitiesByType.done b →
  ActivitiesByType.expected a = ActivitiesByType.expected b →
  ActivitiesByType.failed a = ActivitiesByType.failed b →
  a = b.
Proof. destruct a, b. simpl. congruence. Qed.

Lemma metric_ext state state' type :
  activities state' = activities state →
  (∀ type', activitiesByType state' !!! type' = activitiesByType state !!! type') →
  metric state' type = metric state type.
Proof. intros Hact Hby. unfold metric. by rewrite Hact, Hby. Qed.

Section Composition.
Context `{Util}.

(** What is written depends on the list, on the entries of the categories
    and on the global counters, and on nothing else of the state. *)
Lemma update_ext width state state' :
  activities state' = activities state →
  (∀ type, activitiesByType state' !!! type = activitiesByType state !!! type) →
  filesLinked state' = filesLinked state →
  bytesLinked state' = bytesLinked state →
  corruptedPaths state' = corruptedPaths state →
  untrustedPaths state' = untrustedPaths state →
  update width state' = update width state.
Proof.
  intros Hact Hby Hfl Hbl Hc Hu.
  unfold update, statusLine, getStatus, showActivity, renderActivity.
  rewrite Hact, Hfl, Hbl, Hc, Hu.
  by rewrite !(metric_ext state state') by done.
Qed.

Lemma baseline_start state act type s type' :
  let b := activitiesByType state !!! type' in
  let b' := activitiesByType (startState state act type s) !!! type' in
  ActivitiesByType.done b' = ActivitiesByType.done b ∧
  ActivitiesByType.failed b' = ActivitiesByType.failed b ∧
  ActivitiesByType.expected b' = ActivitiesByType.expected b.
Proof.
  unfold startState. simpl. destruct (decide (type = type')) as [<-|Hne].
  - by rewrite lookup_total_insert_eq.
  - by rewrite lookup_total_insert_ne.
Qed.
End Composition.

(** X6: in a state reached with activities started under fresh ids, starting
    an activity under a fresh id and stopping it at once gives back the
    list, the global lookup, the entry of every category and the counters;
    what [update] writes is what it wrote before. *)
Theorem start_stop_roundtrip `{Util} (width : Z) (state : State)
    (act : ActivityId) (type : ActivityType) (s : string) :
  reachable width freshStart state →
  its state !! act = None →
  ∃ state',
    stopState (startState state act type s) act = Ok state' ∧
    activities state' = activities state ∧
    its state' = its state ∧
    (∀ type', activitiesByType state' !!! type' =
              activitiesByType state !!! type') ∧
    update width state' = update width state.
Proof.
  intros Hwf%reachable_wellFormed Hfresh.
  set (n := nextNode state). set (st1 := startState state act type s).
  assert (n ∉ handles state) as Hnew.
  { intros Hin%(wf_bound _ Hwf). unfold n in Hin. lia. }
  assert (its st1 = <[act := n]> (its state)) as Hits1.
  { unfold st1, startState, emplace. simpl. by rewrite Hfresh. }
  assert (node (activities st1) n = Some (ActInfo.init s type)) as Hnode1.
  { unfold st1, startState. simpl. rewrite node_app.
    destruct (node (activities state) n) eqn:Hn.
    - destruct Hnew. apply node_is_Some. by eexists.
    - by rewrite decide_True. }
  assert (∀ type', byTypeIts state type' !! act = None) as Hnone.
  { intros type'. destruct (byTypeIts state type' !! act) eqn:Hb; [|done].
    apply (wf_byType _ Hwf) in Hb as (i & info & Hi & _). congruence. }
  exists (stopFound st1 act n (ActInfo.init s type)).
  assert (activities (stopFound st1 act n (ActInfo.init s type)) =
          activities state) as Hact.
  { unfold stopFound, st1, startState, erase. simpl.
    rewrite filter_app, filter_cons_False, filter_nil by (simpl; tauto).
    rewrite app_nil_r. by apply erase_notin. }
  assert (∀ type',
    activitiesByType (stopFound st1 act n (ActInfo.init s type)) !!! type' =
    activitiesByType state !!! type') as Hby.
  { intros type'.
    destruct (baseline_stopFound st1 act n (ActInfo.init s type) type')
      as (Hd & Hf & He).
    destruct (baseline_start state act type s type') as (Hd1 & Hf1 & He1).
    fold st1 in Hd1, Hf1, He1. destruct (wf_range _ Hwf type') as [Hrd Hrf].
    apply ActivitiesByType_eq.
    - change (byTypeIts (stopFound st1 act n (ActInfo.init s type)) type' =
              byTypeIts state type').
      rewrite byTypeIts_stopFound. unfold st1. rewrite byTypeIts_start.
      simpl. destruct (decide (type = type')) as [<-|Hne]; [|done].
      unfold emplace. rewrite Hnone, delete_insert_eq. by apply delete_id.
    - rewrite Hd, Hd1. simpl. destruct (decide (type = type')); [|done].
      rewrite Z.add_0_r. by apply wrap64_small.
    - rewrite He, He1. simpl. by rewrite lookup_empty.
    - rewrite Hf, Hf1. simpl. destruct (decide (type = type')); [|done].
      rewrite Z.add_0_r. by apply wrap64_small. }
  split_and!; try done.
  - unfold stopState, deref. by rewrite Hits1, lookup_insert_eq, Hnode1.
  - change (delete act (its st1) = its state).
    rewrite Hits1, delete_insert_eq. by apply delete_id.
  - by apply update_ext.
Qed.

Lemma start_stop_roundtrip_witness :
  ∃ state',
    stopState (startState exBuilding 5 actDownload "fetching") 5 = Ok state' ∧
    activities state' = activities exBuilding ∧
    update 80 state' = update 80 exBuilding.
Proof.
  destruct (start_stop_roundtrip 80 exBuilding 5 actDownload "fetching")
    as (st' & Hstop & Hact & _ & _ & Hupd).
  - eapply (reachable_run 80 freshStart
      [Start 1 actBuilds "building foo"; Progress 1 1 3 0 0] initState).
    + apply reachable_init.
    + vm_compute. tauto.
    + vm_compute. reflexivity.
  - vm_compute. reflexivity.
  - exists st'. split_and!; assumption.
Defined.

(** X7: a stop that has returned can be repeated: the second stop of the id
    misses the lookup, returns the same state and writes the same line. *)
Theorem stopActivity_idempotent `{Util} (width : Z) (state state' : State)
    (act : ActivityId) (out : list string) :
  stopActivity width state act = Ok (state', out) →
  its state' !! act = None ∧
  stopActivity width state' act = Ok (state', out).
Proof.
  unfold stopActivity. intros (st1 & Hstop & Hredraw)%bind_Ok.
  pose proof (redraw_Ok _ _ _ _ Hredraw) as (Heq & _). subst st1.
  assert (its state' !! act = None) as Hnone.
  { unfold stopState in Hstop. destruct (its state !! act) as [i|] eqn:Hi.
    - apply bind_Ok in Hstop as (info & _ & [= <-]). apply lookup_delete_eq.
    - by injection Hstop as <-. }
  split; [done|]. unfold stopState. by rewrite Hnone.
Qed.

Lemma stopActivity_idempotent_witness :
  ∃ out, stopActivity 80 exBuilt 1 = Ok (exBuilt, out).
Proof.
  assert (∃ out, stopActivity 80 exBuilding 1 = Ok (exBuilt, out))
    as [out Hstop] by (eexists; vm_compute; reflexivity).
  exists out. apply (stopActivity_idempotent 80 exBuilding exBuilt 1 out Hstop).
Defined.

(** X8: of two calls of [progress] for the same activity only the second
    counts: after the first has returned, the second returns what it would
    have returned alone. *)
Theorem progress_last_wins `{Util} (width : Z) (state state1 : State)
    (act : ActivityId) (d1 e1 r1 f1 d2 e2 r2 f2 : uint64)
    (out1 : list string) :
  progress width state act d1 e1 r1 f1 = Ok (state1, out1) →
  progress width state1 act d2 e2 r2 f2 =
  progress width state act d2 e2 r2 f2.
Proof.
  unfold progress. intros (st1 & Hp & (-> & _)%redraw_Ok)%bind_Ok.
  f_equal. unfold progressState in *.
  destruct (its state !! act) as [i|] eqn:Hi; [|done].
  apply bind_Ok in Hp as (info & Hinfo%deref_Ok & [= <-]). simpl.
  rewrite Hi. unfold deref. rewrite node_assign, decide_True, Hinfo by done.
  simpl. by rewrite assign_assign.
Qed.

Lemma progress_last_wins_witness :
  progress 80 exBuilding 1 2 3 0 0 =
  progress 80 (stateAfter [Start 1 actBuilds "building foo"]) 1 2 3 0 0.
Proof.
  assert (∃ out, progress 80 (stateAfter [Start 1 actBuilds "building foo"])
                   1 1 3 0 0 = Ok (exBuilding, out)) as [out Hp]
    by (eexists; vm_compute; reflexivity).
  apply (progress_last_wins 80 _ exBuilding 1 1 3 0 0 2 3 0 0 out Hp).
Defined.

(** ** What is written *)

Lemma substr0_prefix (line : string) (n : Z) :
  ∃ rest, line = substr0 line n +:+ rest.
Proof.
  revert n. induction line as [|c line IH]; intros n; simpl.
  - by exists "".
  - destruct (n <=? 0).
    + by exists (String c line).
    + destruct (IH (n - 1)) as [rest Hrest]. exists rest.
      by rewrite app_cons_s, <- Hrest.
Qed.

(** X9: whatever the width, the line [update] writes is the beginning of the
    line it composed, and the whole of it when the composed line is no
    longer than [width - 1] taken as a [size_t]. *)
Theorem update_prefix `{Util} (width : Z) (state : State) (line : string) :
  update width state = Ok line →
  ∃ full rest,
    statusLine state = Ok full ∧ full = line +:+ rest ∧
    (Z.of_nat (String.length full) ≤ to_size_t (width - 1) → line = full).
Proof.
  unfold update. intros (full & Hfull & [= <-])%bind_Ok.
  destruct (substr0_prefix full (to_size_t (width - 1))) as [rest Hrest].
  exists full, rest. split_and!; [done..|]. apply substr0_all.
Qed.

Lemma update_prefix_witness :
  ∃ rest,
    CR +:+ "building foo: compiling x.c" +:+ ESC +:+ "[K" =
      (CR +:+ "building foo: comp") +:+ rest.
Proof.
  destruct (update_prefix 20 exLogged (CR +:+ "building foo: comp"))
    as (full & rest & Hfull & Hrest & _).
  - vm_compute. reflexivity.
  - exists rest. rewrite <- Hrest.
    assert (statusLine exLogged =
            Ok (CR +:+ "building foo: compiling x.c" +:+ ESC +:+ "[K")) as Hs
      by (vm_compute; reflexivity).
    rewrite Hs in Hfull. by injection Hfull.
Defined.

(** X10: a call that returns moves the four global counters as its kind
    says and in no other way: a linked file adds one file and its bytes, a
    corrupted or an untrusted path adds one to its counter, modulo [2^64];
    every other call leaves the four as they are. *)
Theorem step_counters `{Util} (width : Z) (c : call) (state state' : State)
    (out : list string) :
  step width c state = Ok (state', out) →
  filesLinked state' = filesLinkedAfter c state ∧
  bytesLinked state' = bytesLinkedAfter c state ∧
  corruptedPaths state' = corruptedPathsAfter c state ∧
  untrustedPaths state' = untrustedPathsAfter c state.
Proof.
  destruct c as [act type s|act|act d e r f|act type e|act type fields]; simpl.
  - by intros (-> & _)%redraw_Ok.
  - unfold stopActivity. intros (st1 & Hstop & (-> & _)%redraw_Ok)%bind_Ok.
    unfold stopState in Hstop. destruct (its state !! act) as [i|].
    + by apply bind_Ok in Hstop as (info & _ & [= <-]).
    + by injection Hstop as <-.
  - unfold progress. intros (st1 & Hp & (-> & _)%redraw_Ok)%bind_Ok.
    unfold progressState in Hp. destruct (its state !! act) as [i|]; [|done].
    by apply bind_Ok in Hp as (info & _ & [= <-]).
  - unfold setExpected. intros (st1 & Hp & (-> & _)%redraw_Ok)%bind_Ok.
    unfold setExpectedState in Hp. destruct (its state !! act) as [i|]; [|done].
    by apply bind_Ok in Hp as (info & _ & [= <-]).
  - unfold result. destruct type.
    + intros (n & Hn & (-> & _)%redraw_Ok)%bind_Ok. unfold getI in Hn.
      destruct (fields !! 0%nat) as [[s|i]|]; try done.
      by injection Hn as ->.
    + intros (s & _ & Hr)%bind_Ok. destruct (negb (empty (trim s))).
      * apply bind_Ok in Hr as (st1 & Hm & (-> & _)%redraw_Ok).
        unfold moveToTail in Hm. destruct (its state !! act) as [i|]; [|done].
        by apply bind_Ok in Hm as (info & _ & [= <-]).
      * by injection Hr as <- <-.
    + by intros (-> & _)%redraw_Ok.
    + by intros (-> & _)%redraw_Ok.
    + by intros [= <- <-].
Qed.

Lemma step_counters_witness :
  ∃ state' out,
    step 80 (Result 0 resFileLinked [tInt 4096]) exBuilding = Ok (state', out) ∧
    filesLinked state' = 1 ∧ bytesLinked state' = 4096 ∧
    corruptedPaths state' = 0.
Proof.
  assert (∃ r, step 80 (Result 0 resFileLinked [tInt 4096]) exBuilding = Ok r)
    as [[st' out] Hstep] by (eexists; vm_compute; reflexivity).
  destruct (step_counters 80 _ _ _ _ Hstep) as (Hf & Hb & Hc & _).
  exists st', out. split_and!; [exact Hstep | rewrite Hf | rewrite Hb | rewrite Hc];
    vm_compute; reflexivity.
Defined.

(** X11: between two calls a plain log line always goes through: in every
    state the callbacks reach, [log] leaves the state as it is and writes
    the cleared line with the message and a newline, then the line [update]
    makes of the state. *)
Theorem log_reachable `{Util} (width : Z) (ok : call → State → Prop)
    (state : State) (s : string) :
  reachable width ok state →
  ∃ line,
    update width state = Ok line ∧
    log width state s =
      Ok (state, [CR +:+ ESC +:+ "[K" +:+ s +:+ String "010"%char EmptyString;
                  line]).
Proof.
  intros Hr%reachable_renderable.
  destruct (update_defined width state Hr) as [line Hline].
  exists line. split; [done|]. unfold log. by rewrite Hline.
Qed.

Lemma log_reachable_witness :
  ∃ line,
    log 80 exLogged "warning: x" =
      Ok (exLogged,
          [CR +:+ ESC +:+ "[K" +:+ "warning: x" +:+ String "010"%char EmptyString;
           line]).
Proof.
  destruct (log_reachable 80 freshStart exLogged "warning: x")
    as (line & _ & Hlog).
  - apply reachable_exLogged.
  - by exists line.
Defined.

(** ** An empty status *)

Lemma join_empty (sep : string) (l : list string) :
  Forall (λ s, empty s = false) l → join sep l = "" → l = [].
Proof.
  destruct l as [|x l]; [done|]. intros [Hx _]%Forall_cons Hj. exfalso.
  apply (f_equal empty) in Hj. simpl in Hj.
  destruct l; [congruence|]. rewrite empty_app, Hx in Hj. done.
Qed.

Lemma nonEmpty_Forall (l : list string) :
  Forall (λ s, empty s = false) (nonEmpty l).
Proof.
  unfold nonEmpty. apply Forall_forall. intros s Hs%list_elem_of_In.
  apply filter_In in Hs as [_ Hs]. by apply negb_true_iff.
Qed.

Lemma nonEmpty_nil (l : list string) :
  nonEmpty l = [] ↔ Forall (λ s, s = "") l.
Proof.
  unfold nonEmpty. induction l as [|s l IH]; simpl.
  - split; [constructor | done].
  - rewrite Forall_cons. destruct s; simpl; [|split; [done | by intros [? _]]].
    rewrite IH. tauto.
Qed.

Section EmptyStatus.
Context `{Util}.

Lemma copiedClause_empty s1 s2 : copiedClause s1 s2 = "" ↔ s1 = "" ∧ s2 = "".
Proof.
  unfold copiedClause. destruct s1, s2; simpl; split; try done; by intros [? ?].
Qed.

Lemma optimisedClause_empty state s : optimisedClause state s = "" ↔ s = "".
Proof. unfold optimisedClause. by destruct s. Qed.

Lemma counterClause_empty (x : Z) (pre post : string) :
  empty post = false →
  (if nonzero x then ANSI_RED +:+ pre +:+ post +:+ ANSI_NORMAL else "") = "" ↔
  x = 0.
Proof.
  intros Hpost. unfold nonzero. destruct (Z.eqb_spec x 0) as [->|Hx]; simpl.
  - done.
  - split; [|done]. intros He%empty_true.
    rewrite !empty_app, Hpost, !andb_false_r in He. done.
Qed.

Lemma fragment_empty state type itemFmt numberFmt unit s :
  itemFmt ∈ itemFmts →
  renderActivity state type itemFmt numberFmt unit = Ok s →
  s = "" ↔ ∃ m, metric state type = Ok m ∧ zeroMetric m.
Proof.
  intros Hfmt. unfold renderActivity. intros (m & Hm & [= <-])%bind_Ok.
  rewrite (renderMetric_empty m itemFmt numberFmt unit Hfmt). split.
  - intros Hz. by exists m.
  - intros (m' & Hm' & Hz). rewrite Hm in Hm'. by injection Hm' as <-.
Qed.
End EmptyStatus.

Lemma rendered_cases (type : ActivityType) :
  type ∈ rendered ↔
  type = actBuilds ∨ type = actCopyPaths ∨ type = actCopyPath ∨
  type = actDownload ∨ type = actOptimiseStore ∨ type = actVerifyPaths.
Proof. unfold rendered. rewrite !elem_of_cons, elem_of_nil. tauto. Qed.

(** X12: in a state that can be rendered, the status is empty exactly when
    the four numbers of each of the six rendered categories are zero and so
    are the counters of corrupted and untrusted paths; and exactly then the
    destructor writes the cleared line and nothing after it. *)
Theorem getStatus_empty_iff `{Util} (state : State) :
  renderable state →
  let quiet :=
    (∀ type, type ∈ rendered → ∃ m, metric state type = Ok m ∧ zeroMetric m) ∧
    corruptedPaths state = 0 ∧ untrustedPaths state = 0 in
  (getStatus state = Ok "" ↔ quiet) ∧
  (destroy state = Ok [CR +:+ ESC +:+ "[K"] ↔ quiet).
Proof.
  intros Hr quiet.
  destruct (renderActivity_defined state actBuilds "%s built" "%d" 1)
    as [b Hb]; [apply Hr, rendered_cases; tauto|].
  destruct (renderActivity_defined state actCopyPaths "%s copied" "%d" 1)
    as [s1 H1]; [apply Hr, rendered_cases; tauto|].
  destruct (renderActivity_defined state actCopyPath "%s MiB" "%.1f" MiB)
    as [s2 H2]; [apply Hr, rendered_cases; tauto|].
  destruct (renderActivity_defined state actDownload "%s MiB DL" "%.1f" MiB)
    as [d Hd]; [apply Hr, rendered_cases; tauto|].
  destruct (renderActivity_defined state actOptimiseStore
              "%s paths optimised" "%d" 1) as [o Ho]; [apply Hr, rendered_cases; tauto|].
  destruct (renderActivity_defined state actVerifyPaths
              "%s paths verified" "%d" 1) as [v Hv]; [apply Hr, rendered_cases; tauto|].
  assert (getStatus state =
          Ok (join ", "
                (nonEmpty [b; copiedClause s1 s2; d; optimisedClause state o; v;
                           corruptedClause state; untrustedClause state])))
    as Hs.
  { rewrite (getStatus_fold _ _ _ _ _ _ _ Hb H1 H2 Hd Ho Hv).
    by rewrite fold_clauses. }
  assert (∀ f, f ∈ itemFmts ↔
    f = "%s built" ∨ f = "%s copied" ∨ f = "%s MiB" ∨ f = "%s MiB DL" ∨
    f = "%s paths optimised" ∨ f = "%s paths verified") as Hfmts.
  { intros f. unfold itemFmts. rewrite !elem_of_cons, elem_of_nil. tauto. }
  assert (getStatus state = Ok "" ↔ quiet) as Hquiet.
  { rewrite Hs. split.
    - intros Heq.
      assert (nonEmpty [b; copiedClause s1 s2; d; optimisedClause state o; v;
                        corruptedClause state; untrustedClause state] = [])
        as Hj.
      { apply (join_empty ", "); [apply nonEmpty_Forall | congruence]. }
      apply nonEmpty_nil in Hj.
      apply Forall_cons in Hj as [Hb0 Hj]. apply Forall_cons in Hj as [Hc0 Hj].
      apply Forall_cons in Hj as [Hd0 Hj]. apply Forall_cons in Hj as [Ho0 Hj].
      apply Forall_cons in Hj as [Hv0 Hj]. apply Forall_cons in Hj as [Hcp Hj].
      apply Forall_cons in Hj as [Hup _].
      apply copiedClause_empty in Hc0 as [H10 H20].
      apply optimisedClause_empty in Ho0.
      unfold corruptedClause in Hcp. unfold untrustedClause in Hup.
      apply counterClause_empty in Hcp; [|done].
      apply counterClause_empty in Hup; [|done].
      split; [|done]. intros type. unfold rendered.
      rewrite !elem_of_cons, elem_of_nil.
      intros [->|[->|[->|[->|[->|[->|[]]]]]]].
      + apply (fragment_empty _ _ _ _ _ _ (proj2 (Hfmts _) (or_introl eq_refl)) Hb).
        done.
      + eapply (fragment_empty _ _ "%s copied"); [apply Hfmts; tauto|exact H1|].
        done.
      + eapply (fragment_empty _ _ "%s MiB"); [apply Hfmts; tauto|exact H2|].
        done.
      + eapply (fragment_empty _ _ "%s MiB DL"); [apply Hfmts; tauto|exact Hd|].
        done.
      + eapply (fragment_empty _ _ "%s paths optimised");
          [apply Hfmts; tauto|exact Ho|]. done.
      + eapply (fragment_empty _ _ "%s paths verified");
          [apply Hfmts; tauto|exact Hv|]. done.
    - intros (Hz & Hcp & Hup).
      assert (b = "") as ->.
      { eapply (fragment_empty _ _ "%s built"); [apply Hfmts; tauto|exact Hb|].
        apply Hz. apply rendered_cases. tauto. }
      assert (s1 = "") as ->.
      { eapply (fragment_empty _ _ "%s copied"); [apply Hfmts; tauto|exact H1|].
        apply Hz. apply rendered_cases. tauto. }
      assert (s2 = "") as ->.
      { eapply (fragment_empty _ _ "%s MiB"); [apply Hfmts; tauto|exact H2|].
        apply Hz. apply rendered_cases. tauto. }
      assert (d = "") as ->.
      { eapply (fragment_empty _ _ "%s MiB DL"); [apply Hfmts; tauto|exact Hd|].
        apply Hz. apply rendered_cases. tauto. }
      assert (o = "") as ->.
      { eapply (fragment_empty _ _ "%s paths optimised");
          [apply Hfmts; tauto|exact Ho|].
        apply Hz. apply rendered_cases. tauto. }
      assert (v = "") as ->.
      { eapply (fragment_empty _ _ "%s paths verified");
          [apply Hfmts; tauto|exact Hv|].
        apply Hz. apply rendered_cases. tauto. }
      unfold corruptedClause, untrustedClause, nonzero. rewrite Hcp, Hup.
      reflexivity. }
  split; [exact Hquiet|]. rewrite <- Hquiet. unfold destroy.
  destruct (getStatus state) as [status| |]; simpl; [|done..].
  destruct status; simpl; [done|]. split; intros [=].
Qed.

Lemma getStatus_empty_iff_witness :
  destroy (stateAfter [Start 1 actUnknown "a"; Stop 1]) =
    Ok [CR +:+ ESC +:+ "[K"] ∧
  ¬ (∃ m, metric exBuilt actBuilds = Ok m ∧ zeroMetric m).
Proof.
  split.
  - destruct (getStatus_empty_iff (stateAfter [Start 1 actUnknown "a"; Stop 1]))
      as [Hs Hd].
    + apply (reachable_renderable 80 anyCall).
      eapply (reachable_run 80 anyCall [Start 1 actUnknown "a"; Stop 1]
                initState).
      * apply reachable_init.
      * vm_compute. tauto.
      * vm_compute. reflexivity.
    + apply Hd, Hs. vm_compute. reflexivity.
  - intros Hz.
    destruct (getStatus_empty_iff exBuilt) as [Hs _].
    + apply (reachable_renderable 80 anyCall).
      eapply (reachable_run 80 anyCall
        [Start 1 actBuilds "building foo"; Progress 1 1 3 0 0; Stop 1]
        initState).
      * apply reachable_init.
      * vm_compute. tauto.
      * vm_compute. reflexivity.
    + assert (getStatus exBuilt ≠ Ok "") as Hne by (vm_compute; discriminate).
      apply Hne, Hs. vm_compute in Hz. vm_compute.
      destruct Hz as (m & [= <-] & Hz). destruct Hz as [Hz _]. discriminate Hz.
Defined.

(** ** The trailing label *)

Lemma find_app_unlabelled (l l' : list (nat * ActInfo.t)) :
  Forall (λ x, labelled x = false) l →
  List.find labelled (l ++ l') = List.find labelled l'.
Proof.
  induction 1 as [|x l Hx _ IH]; [done|]. simpl. by rewrite Hx.
Qed.

Lemma Forall_rev_unlabelled (l : list (nat * ActInfo.t)) :
  Forall (λ x, labelled x = false) l →
  Forall (λ x, labelled x = false) (rev l).
Proof.
  intros Hl. apply Forall_forall. intros x Hx%list_elem_of_In%in_rev.
  apply list_elem_of_In in Hx. by eapply Forall_forall in Hl.
Qed.

Lemma find_labelled_last (l1 l2 : list (nat * ActInfo.t)) n :
  labelled n = true → Forall (λ x, labelled x = false) l2 →
  List.find labelled (rev (l1 ++ n :: l2)) = Some n.
Proof.
  intros Hn Hl2. rewrite rev_app_distr. simpl. rewrite <- !app_assoc.
  rewrite find_app_unlabelled by (by apply Forall_rev_unlabelled).
  simpl. by rewrite Hn.
Qed.

Lemma find_unlabelled (l : list (nat * ActInfo.t)) :
  Forall (λ x, labelled x = false) l → List.find labelled (rev l) = None.
Proof.
  intros Hl%Forall_rev_unlabelled.
  rewrite <- (app_nil_r (rev l)). by rewrite find_app_unlabelled.
Qed.

(** X13: the label after the status is that of the last activity of the
    list that has a primary or a secondary label, the activities after it
    passed over: the composed line is the carriage return, the bracketed
    status and a space when there is a status, the label, and the sequence
    that clears the rest of the line. *)
Theorem statusLine_trailing_label `{Util} (state : State) (status : string)
    (l1 l2 : list (nat * ActInfo.t)) (n : nat * ActInfo.t) :
  getStatus state = Ok status →
  activities state = l1 ++ n :: l2 →
  labelled n = true →
  Forall (λ x, labelled x = false) l2 →
  statusLine state =
    Ok (CR +:+ bracket status +:+ (if negb (empty status) then " " else "")
          +:+ labelText n.2 +:+ ESC +:+ "[K").
Proof.
  intros Hs Hact Hn Hl2. unfold statusLine. rewrite Hs. cbn [mbind outcome_bind].
  rewrite Hact, (find_labelled_last _ _ _ Hn Hl2).
  destruct (l1 ++ n :: l2) as [|x l] eqn:Hl.
  { by destruct l1. }
  f_equal. unfold bracket, labelText.
  destruct (empty status), (empty (ActInfo.s n.2)), (empty (ActInfo.s2 n.2));
    simpl; by rewrite ?app_assoc_s, ?app_nil_s.
Qed.

Lemma statusLine_trailing_label_witness :
  statusLine
    (stateAfter [Start 1 actBuilds "building foo"; Progress 1 1 3 0 0;
                 Start 2 actUnknown ""]) =
    Ok (CR +:+ "[" +:+ ANSI_GREEN +:+ "1" +:+ ANSI_NORMAL +:+ "/3 built] "
          +:+ "building foo" +:+ ESC +:+ "[K").
Proof.
  rewrite (statusLine_trailing_label _
             (ANSI_GREEN +:+ "1" +:+ ANSI_NORMAL +:+ "/3 built")
             []
             [(1%nat, ActInfo.mk "" "" actUnknown 0 0 0 0 ∅)]
             (0%nat, ActInfo.mk "building foo" "" actBuilds 1 3 0 0 ∅)).
  - vm_compute. reflexivity.
  - vm_compute. reflexivity.
  - vm_compute. reflexivity.
  - reflexivity.
  - repeat constructor.
Defined.

(** X14: when no activity of the list has a label, the status is followed by
    no label; it is still followed by a space when there is a status and
    the list is not empty. *)
Theorem statusLine_no_label `{Util} (state : State) (status : string) :
  getStatus state = Ok status →
  Forall (λ x, labelled x = false) (activities state) →
  statusLine state =
    Ok (CR +:+ bracket status
          +:+ (if negb (empty status)
                  && negb (bool_decide (activities state = []))
               then " " else "")
          +:+ ESC +:+ "[K").
Proof.
  intros Hs Hl. unfold statusLine. rewrite Hs. cbn [mbind outcome_bind].
  rewrite (find_unlabelled _ Hl). f_equal. unfold bracket.
  destruct (activities state) as [|x l]; destruct (empty status); simpl;
    by rewrite ?app_assoc_s, ?app_nil_s.
Qed.

Lemma statusLine_no_label_witness :
  statusLine (stateAfter [Start 1 actBuilds ""; Progress 1 1 3 0 0]) =
    Ok (CR +:+ "[" +:+ ANSI_GREEN +:+ "1" +:+ ANSI_NORMAL +:+ "/3 built] "
          +:+ ESC +:+ "[K").
Proof.
  rewrite (statusLine_no_label _
             (ANSI_GREEN +:+ "1" +:+ ANSI_NORMAL +:+ "/3 built")).
  - vm_compute. reflexivity.
  - vm_compute. reflexivity.
  - assert (activities (stateAfter [Start 1 actBuilds ""; Progress 1 1 3 0 0])
            = [(0%nat, ActInfo.mk "" "" actBuilds 1 3 0 0 ∅)]) as ->
      by (vm_compute; reflexivity).
    repeat constructor.
Defined.

(** ** A build log line on the screen *)

Lemma foldr_addLive_same_nodes l l' (L : list (Z * nat)) b :
  (∀ j, j ∈ L → node l' j.2 = node l j.2) →
  foldr (uncurry (addLive l')) b L = foldr (uncurry (addLive l)) b L.
Proof.
  induction L as [|[act i] L IH]; intros Hsame; [done|]. simpl.
  rewrite IH by (intros j Hj; apply Hsame; by right).
  pose proof (Hsame (act, i) ltac:(left)) as Hn. simpl in Hn.
  unfold addLive, deref. by rewrite Hn.
Qed.

Lemma metric_same_nodes state state' type :
  (∀ type', activitiesByType state' !!! type' = activitiesByType state !!! type') →
  (∀ act j, byTypeIts state type !! act = Some j →
            node (activities state') j = node (activities state) j) →
  metric state' type = metric state type.
Proof.
  intros Hby Hsame. unfold metric. rewrite Hby, !map_fold_foldr.
  rewrite (foldr_addLive_same_nodes (activities state) (activities state'));
    [done|].
  intros [act j] Hj%elem_of_map_to_list. by eapply Hsame.
Qed.

Section LogLine.
Context `{Util}.

Lemma getStatus_same_nodes state state' :
  (∀ type, activitiesByType state' !!! type = activitiesByType state !!! type) →
  filesLinked state' = filesLinked state →
  bytesLinked state' = bytesLinked state →
  corruptedPaths state' = corruptedPaths state →
  untrustedPaths state' = untrustedPaths state →
  (∀ type act j, type ∈ rendered → byTypeIts state type !! act = Some j →
                 node (activities state') j = node (activities state) j) →
  getStatus state' = getStatus state.
Proof.
  intros Hby Hfl Hbl Hc Hu Hsame.
  unfold getStatus, showActivity, renderActivity. rewrite Hfl, Hbl, Hc, Hu.
  rewrite !(metric_same_nodes state state')
    by (try done; intros act j; apply Hsame, rendered_cases; tauto).
  done.
Qed.
End LogLine.

(** X15: in a state reached with activities started under fresh ids, a build
    log line that is not blank, for a live activity of a category the status
    does not render, leaves the status as it is and makes the activity the
    one whose label is shown: the line written is the status, the primary
    label of the activity and the trimmed text, cut to the width. *)
Theorem result_logline_label `{Util} (width : Z) (state : State)
    (act : ActivityId) (text : string) (i : nat) (info : ActInfo.t) :
  reachable width freshStart state →
  its state !! act = Some i →
  node (activities state) i = Some info →
  ActInfo.type info ∉ rendered →
  trim text ≠ "" →
  ∃ state' status,
    getStatus state = Ok status ∧
    getStatus state' = Ok status ∧
    result width state act resBuildLogLine [tString text] =
      Ok (state',
          [substr0
             (CR +:+ bracket status
                +:+ (if negb (empty status) then " " else "")
                +:+ ActInfo.s info
                +:+ (if negb (empty (ActInfo.s info)) then ": " else "")
                +:+ trim text +:+ ESC +:+ "[K")
             (to_size_t (width - 1))]).
Proof.
  intros Hreach Hi Hinfo Htype Htext.
  pose proof (reachable_wellFormed _ _ Hreach) as Hwf.
  pose proof (reachable_renderable _ _ _ Hreach) as Hr.
  destruct (result_logline_moves width state act text i info
              Hreach Hi Hinfo Htype Htext)
    as (state' & line & Hres & Hact & _ & Hupd).
  destruct (getStatus_defined state Hr) as [status Hs].
  assert (activitiesByType state' = activitiesByType state ∧
          filesLinked state' = filesLinked state ∧
          bytesLinked state' = bytesLinked state ∧
          corruptedPaths state' = corruptedPaths state ∧
          untrustedPaths state' = untrustedPaths state)
    as (Hby & Hfl & Hbl & Hc & Hu).
  { unfold result in Hres. simpl in Hres.
    destruct (negb (empty (trim text))); [|by injection Hres as <-].
    apply bind_Ok in Hres as (st1 & Hm & (-> & _)%redraw_Ok).
    unfold moveToTail in Hm. rewrite Hi in Hm.
    by apply bind_Ok in Hm as (info' & _ & [= <-]). }
  assert (getStatus state' = Ok status) as Hs'.
  { rewrite <- Hs. apply getStatus_same_nodes; try done; [by rewrite Hby|].
    intros type act' j Ht Hj. rewrite Hact, node_app, node_erase.
    assert (j ∈ handles state) as Hin
      by (by eapply liveIts_handles, Hj; apply Hr).
    assert (j ≠ i) as Hji.
    { intros ->.
      destruct (wf_byType _ Hwf _ _ _ Hj) as (i2 & info2 & Hi2 & Hn2 & Ht2 & Hsame).
      assert (i = i2) as <- by (by apply Hsame).
      apply Htype. congruence. }
    rewrite decide_False by done.
    apply node_is_Some in Hin as [a Ha]. unfold handles in Ha. by rewrite Ha. }
  exists state', status. split_and!; [done..|].
  rewrite Hres. do 3 f_equal.
  unfold update in Hupd. apply bind_Ok in Hupd as (full & Hfull & [= <-]).
  f_equal. unfold statusLine in Hfull. rewrite Hs' in Hfull.
  cbn [mbind outcome_bind] in Hfull.
  rewrite Hact in Hfull.
  rewrite (find_labelled_last _ [] (nextNode state,
             ActInfo.set_s2 info (trim text))) in Hfull.
  - destruct (erase (activities state) i
                ++ [(nextNode state, ActInfo.set_s2 info (trim text))])
      as [|x l] eqn:Hl.
    { by destruct (erase (activities state) i). }
    injection Hfull as <-. unfold bracket. simpl.
    destruct (trim text) as [|c t] eqn:Ht; [done|]. simpl.
    destruct (empty status), (empty (ActInfo.s info)); simpl;
      by rewrite ?app_assoc_s, ?app_nil_s.
  - unfold labelled. simpl. destruct (trim text); [done|].
    simpl. by rewrite andb_false_r.
  - constructor.
Qed.

Lemma result_logline_label_witness :
  ∃ state',
    result 80 exLogged 7 resBuildLogLine [tString " linking "] =
      Ok (state', [CR +:+ "building foo: linking" +:+ ESC +:+ "[K"]).
Proof.
  destruct (result_logline_label 80 exLogged 7 " linking " 1%nat
              (ActInfo.mk "building foo" "compiling x.c" actUnknown 0 0 0 0 ∅))
    as (state' & status & Hs & _ & Hres).
  - apply reachable_exLogged.
  - vm_compute. reflexivity.
  - vm_compute. reflexivity.
  - simpl. rewrite rendered_cases. intros [?|[?|[?|[?|[?|?]]]]]; discriminate.
  - vm_compute. discriminate.
  - exists state'. rewrite Hres.
    assert (getStatus exLogged = Ok "") as Hs0 by (vm_compute; reflexivity).
    rewrite Hs0 in Hs. injection Hs as <-. vm_compute. reflexivity.
Defined.
